(** * TodoistSorter: the task-to-section assignment run of [main.py]

    A shallow embedding of [run] (main.py, lines 27-100) and of the
    collaborators it talks to, followed by the properties of the run.

    [run] is effectful: it reads pages of tasks and sections from the
    Todoist API, asks an AI agent for a mapping, issues one [move_task] call
    per returned pair through [asyncio.gather] and logs one line per pair.
    The embedding keeps the text of [run] and makes its effects explicit:
    a computation yields the trace of the events it performed, in the order
    they happened, together with either a value or the exception that
    escaped. *)

From stdpp Require Import gmap strings list fin_maps pretty.

(** ** Data model *)

(** [todoist_api_python.models.Task], the attributes [run] reads. *)
Module Task.
Record t := mk {
  id : string;
  content : string;
  section_id : option string   (* [None] in Python when the task has no section *)
}.
End Task.

(** [todoist_api_python.models.Section], the attributes [run] reads. *)
Module TodoistSection.
Record t := mk {
  id : string;
  name : string
}.
End TodoistSection.

(** main.py, lines 16-18. *)
Record TaskSectionAssignment := {
  task_id : string;
  section_id : string
}.

(** main.py, lines 21-24. *)
Record SupportOutput := {
  task_to_sections : list TaskSectionAssignment
}.

(** A Python exception, with the text [str] gives for it. *)
Inductive Exception := Exc (text : string).

Definition str (e : Exception) : string := let 'Exc s := e in s.

(** What is not an instance of [Exception]: the boolean a [move_task] call
    returned, or a [BaseException] that is no [Exception], such as the
    [asyncio.CancelledError] of a call that was cancelled. *)
Inductive not_exception :=
| Returned (b : bool)
| Cancelled (text : string).

(** A returned boolean is written as it is, also under [inr]. *)
Coercion Returned : bool >-> not_exception.
Arguments inr {A B} & _.

(** What awaiting one [move_task] coroutine under
    [gather(..., return_exceptions=True)] leaves in the result list. On the
    left is what [isinstance(move_result, Exception)] of line 86 accepts:
    an exception the call raised. On the right is everything else: what the
    call returned, or the [CancelledError] that [gather] leaves in the list
    just the same. A [KeyboardInterrupt] or [SystemExit], which stops the
    event loop itself, is outside the model. *)
Abbreviation outcome := (Exception + not_exception)%type.

(** ** Events and computations *)

Inductive Level := DEBUG | INFO | ERROR.

Inductive event :=
| Log (lvl : Level) (msg : string)
| GetTasks (project_id : string)
| TasksPage (r : Exception + list Task.t)
| GetSections (project_id : string)
| SectionsPage (r : Exception + list TodoistSection.t)
| NewAgent (r : option Exception)
| AgentRun (user_prompt : string) (r : Exception + SupportOutput)
| MoveTask (task_id section_id : string) (r : outcome).

Inductive result (A : Type) :=
| Return (a : A)
| Raise (e : Exception).
Arguments Return {A} a.
Arguments Raise {A} e.

(** The trace of a computation and how it ended. An exception ends the
    computation where it is raised; no [try] appears in [run]. *)
Definition IO (A : Type) : Type := list event * result A.

Definition ret {A} (a : A) : IO A := ([], Return a).
Definition raise {A} (e : Exception) : IO A := ([], Raise e).
Definition emit (ev : event) : IO unit := ([ev], Return tt).

Definition bind {A B} (m : IO A) (k : A → IO B) : IO B :=
  match m with
  | (tr, Return a) => let '(tr', r) := k a in (tr ++ tr', r)
  | (tr, Raise e) => (tr, Raise e)
  end.

Notation "x <- m ;; k" := (bind m (λ x, k))
  (at level 100, m at next level, right associativity,
   format "'[v' x  <-  m  ;;  '/' k ']'").
Notation "m ;;; k" := (bind m (λ _, k))
  (at level 100, right associativity,
   format "'[v' m  ;;;  '/' k ']'").

(** ** Logging (main.py, lines 12-13) *)

(** The numeric levels of the [logging] module. *)
Definition levelno (l : Level) : nat :=
  match l with DEBUG => 10 | INFO => 20 | ERROR => 40 end.

(** [logging.basicConfig(level=logging.INFO, ...)]. *)
Definition basicConfig_level : Level := INFO.

(** A record below the configured level is not emitted. *)
Definition logger_log (lvl : Level) (msg : string) : IO unit :=
  if decide (levelno basicConfig_level ≤ levelno lvl)
  then emit (Log lvl msg)
  else ret tt.

Definition logger_debug := logger_log DEBUG.
Definition logger_info := logger_log INFO.
Definition logger_error := logger_log ERROR.

(** ** The collaborators *)

(** [TodoistAPIAsync]. [get_tasks] and [get_sections] give the responses of
    the successive page requests of the paginator for a project; a request
    that fails raises when the loop asks for that page (a failure of the
    initial [await] is a failure of the first page). [move_task] is a remote
    mutation: its answer may depend on the moves the server has already
    processed, given as the first argument in the order they were served. *)
Record TodoistAPIAsync := {
  get_tasks : string → list (Exception + list Task.t);
  get_sections : string → list (Exception + list TodoistSection.t);
  move_task : list (string * string) → string → string → outcome
}.

(** [pydantic_ai.Agent] with the arguments of lines 50-56, as a run finds
    it. Either the agent can be built, and is a black box from the prompt to
    a structured output or an exception; or building it raises (no key for
    the provider of the model, say). [new] is what the construction of line
    50 does, [run] what [Agent(...).run(user_prompt=...)] gives. *)
Module Agent.
Inductive t :=
| mk (run : string → Exception + SupportOutput)
| unavailable (e : Exception).

Definition new (agent : t) : option Exception :=
  match agent with
  | mk _ => None
  | unavailable e => Some e
  end.

Definition run (agent : t) (user_prompt : string) : Exception + SupportOutput :=
  match agent with
  | mk run => run user_prompt
  | unavailable e => inl e
  end.
End Agent.

(** ** Python helpers *)

(** The line feed, as a one-character string. *)
Definition nl : string := String (Ascii.ascii_of_nat 10) EmptyString.

(** [not task.section_id]: [None] and the empty string are falsy. *)
Definition not_ (o : option string) : bool :=
  match o with
  | None => true
  | Some "" => true
  | Some _ => false
  end.

(** [async for page in pages: acc.extend(page)] (lines 30-32 and 42-44). *)
Fixpoint drain {A} (page_event : Exception + list A → event)
    (pages : list (Exception + list A)) (acc : list A) : IO (list A) :=
  match pages with
  | [] => ret acc
  | inl e :: _ => emit (page_event (inl e));;; raise e
  | inr page :: rest =>
      emit (page_event (inr page));;;
      drain page_event rest (acc ++ page)
  end.

(** [for x in xs: body(x)]. *)
Fixpoint for_each {A} (xs : list A) (body : A → IO unit) : IO unit :=
  match xs with
  | [] => ret tt
  | x :: rest => body x;;; for_each rest body
  end.

(** [dict.get(key, default)]. *)
Definition dict_get (d : gmap string string) (key dflt : string) : string :=
  default dflt (d !! key).

(** ** [asyncio.gather] with [return_exceptions=True] over [move_task] (lines 74-80)

    One coroutine per pair ([pr] below, for the loop variable [pair] of the
    source) is created in the order of the list; [gather]
    starts them all and waits for all of them. Which pending call the server
    processes next is not up to [run]: it is read from the schedule [sched]
    (the head, modulo the number of pending calls; 0 when the schedule is
    used up), so every schedule is a legal one. An exception raised by a call
    is that call's result, and the result of a call is put at the position
    of its coroutine. *)
Section Gather.
Variable todoist : TodoistAPIAsync.

Fixpoint gather_loop (n : nat) (sched : list nat) (served : list (string * string))
    (pending : list TaskSectionAssignment) : list event * list outcome :=
  match n with
  | 0 => ([], [])
  | S n' =>
      let k := hd 0 sched `mod` length pending in
      match pending !! k with
      | None => ([], [])
      | Some pr =>
          let r := move_task todoist served (task_id pr) (section_id pr) in
          let '(tr, rs) :=
            gather_loop n' (tl sched)
              (served ++ [(task_id pr, section_id pr)]) (delete k pending) in
          (MoveTask (task_id pr) (section_id pr) r :: tr,
           take k rs ++ r :: drop k rs)
      end
  end.

Definition gather (sched : list nat) (pairs : list TaskSectionAssignment)
    : IO (list outcome) :=
  let '(tr, rs) := gather_loop (length pairs) sched [] pairs in
  (tr, Return rs).
End Gather.

(** ** [run] (main.py, lines 27-100) *)

Definition msg_tasks (non_assigned_tasks : list Task.t) : string :=
  String.concat nl
    (map (λ task, Task.content task +:+ " [TASK_ID: " +:+ Task.id task +:+ "]")
         non_assigned_tasks).

Definition msg_sections (sections : list TodoistSection.t) : string :=
  String.concat nl
    (map (λ section,
            TodoistSection.name section +:+ " [SECTION_ID: "
              +:+ TodoistSection.id section +:+ "]")
         sections).

Definition user_prompt (msg_tasks msg_sections : string) : string :=
  nl +:+ "    List of tasks:" +:+ nl +:+ "    " +:+ msg_tasks +:+ nl
     +:+ nl +:+ "    List of sections:" +:+ nl +:+ "    " +:+ msg_sections +:+ nl
     +:+ "    ".

(** [{task.id: task.content for task in tasks}]: a later entry replaces an
    earlier one with the same key. *)
Definition task_map_of (tasks : list Task.t) : gmap string string :=
  foldl (λ d task, <[Task.id task := Task.content task]> d) ∅ tasks.

Definition section_map_of (sections : list TodoistSection.t) : gmap string string :=
  foldl (λ d section, <[TodoistSection.id section := TodoistSection.name section]> d)
        ∅ sections.

(** The body of the reporting loop (lines 83-98). The test of line 86 is
    [isinstance(move_result, Exception)]: the results on the left of
    [outcome]. *)
Definition report (task_map section_map : gmap string string)
    (item : TaskSectionAssignment * outcome) : IO unit :=
  let '(pr, move_result) := item in
  let task_name := dict_get task_map (task_id pr) (task_id pr) in
  let section_name := dict_get section_map (section_id pr) (section_id pr) in
  match move_result with
  | inl exc =>
      logger_error
        ("Failed to move task '" +:+ task_name +:+ "' to section '"
           +:+ section_name +:+ "': " +:+ str exc)
  | inr _ =>
      logger_info
        ("Successfully moved task '" +:+ task_name +:+ "' to section '"
           +:+ section_name +:+ "'")
  end.

(** [[task for task in tasks if not task.section_id]] (line 34). *)
Definition non_assigned (tasks : list Task.t) : list Task.t :=
  List.filter (λ task, not_ (Task.section_id task)) tasks.

(** [run] takes, besides the two arguments of the source, the class of the
    agent it builds at lines 50-56 and the schedule of the concurrent calls.
    The [logger.debug] calls of lines 59 and 62 are kept: they emit nothing
    at the configured level. *)
Definition run (agent : Agent.t) (sched : list nat)
    (todoist : TodoistAPIAsync) (project_id : string) : IO unit :=
  logger_info "Starting task-section assignment process";;;
  tasks <- (emit (GetTasks project_id);;;
            drain TasksPage (get_tasks todoist project_id) []);;
  let non_assigned_tasks := non_assigned tasks in
  match non_assigned_tasks with
  | [] => logger_info "All tasks already have sections assigned"
  | _ :: _ =>
      logger_info ("Found " +:+ pretty (length non_assigned_tasks)
                     +:+ " tasks without section");;;
      sections <- (emit (GetSections project_id);;;
                   drain SectionsPage (get_sections todoist project_id) []);;
      let task_map := task_map_of tasks in
      let section_map := section_map_of sections in
      match Agent.new agent with
      | Some e => emit (NewAgent (Some e));;; raise e
      | None => emit (NewAgent None)
      end;;;
      let msg_tasks := msg_tasks non_assigned_tasks in
      logger_debug ("Tasks without section:" +:+ nl +:+ msg_tasks);;;
      let msg_sections := msg_sections sections in
      logger_debug ("Available sections:" +:+ nl +:+ msg_sections);;;
      logger_info "Requesting AI agent to map tasks to sections";;;
      result <- (let prompt := user_prompt msg_tasks msg_sections in
                 let r := Agent.run agent prompt in
                 emit (AgentRun prompt r);;;
                 match r with inl e => raise e | inr output => ret output end);;
      logger_info "Received mapping from AI agent, moving tasks to sections";;;
      results <- gather todoist sched (task_to_sections result);;
      for_each (zip (task_to_sections result) results) (report task_map section_map);;;
      logger_info "Task-section assignment process completed"
  end.

(** ** Observations on traces *)

Definition move_event (pr : TaskSectionAssignment) (r : outcome) : event :=
  MoveTask (task_id pr) (section_id pr) r.

Definition call_of (pr : TaskSectionAssignment) : string * string :=
  (task_id pr, section_id pr).

(** The [move_task] calls of a trace, as (task, section) pairs. *)
Definition move_calls (tr : list event) : list (string * string) :=
  omap (λ ev, match ev with MoveTask t s _ => Some (t, s) | _ => None end) tr.

(** The [move_task] calls of a trace together with their answers. *)
Definition move_events (tr : list event) : list event :=
  omap (λ ev, match ev with MoveTask _ _ _ => Some ev | _ => None end) tr.

(** The prompts sent to the agent. *)
Definition agent_calls (tr : list event) : list string :=
  omap (λ ev, match ev with AgentRun p _ => Some p | _ => None end) tr.

(** The requests made for sections. *)
Definition section_requests (tr : list event) : list event :=
  omap (λ ev, match ev with
              | GetSections _ | SectionsPage _ => Some ev
              | _ => None
              end) tr.

(** The emitted log records. *)
Definition log_lines (tr : list event) : list (Level * string) :=
  omap (λ ev, match ev with Log lvl msg => Some (lvl, msg) | _ => None end) tr.

(** The exceptions of the page requests that failed. *)
Definition fetch_errors (tr : list event) : list Exception :=
  omap (λ ev, match ev with
              | TasksPage (inl e) | SectionsPage (inl e) => Some e
              | _ => None
              end) tr.

(** The exceptions of the agent invocations that failed. *)
Definition classification_errors (tr : list event) : list Exception :=
  omap (λ ev, match ev with AgentRun _ (inl e) => Some e | _ => None end) tr.

(** The exceptions of the constructions of the agent that failed. *)
Definition construction_errors (tr : list event) : list Exception :=
  omap (λ ev, match ev with NewAgent (Some e) => Some e | _ => None end) tr.

(** The IDs of a snapshot. *)
Definition task_ids (tasks : list Task.t) : list string := map Task.id tasks.
Definition section_ids (sections : list TodoistSection.t) : list string :=
  map TodoistSection.id sections.

(** The request [run] builds from a snapshot (lines 58-71). *)
Definition prompt_of (tasks : list Task.t) (sections : list TodoistSection.t)
    : string :=
  user_prompt (msg_tasks (non_assigned tasks)) (msg_sections sections).

(** The results [gather] returns for a list of pairs, and the calls it
    makes for them. *)
Definition gather_results (todoist : TodoistAPIAsync) (sched : list nat)
    (pairs : list TaskSectionAssignment) : list outcome :=
  (gather_loop todoist (length pairs) sched [] pairs).2.

Definition gather_trace (todoist : TodoistAPIAsync) (sched : list nat)
    (pairs : list TaskSectionAssignment) : list event :=
  (gather_loop todoist (length pairs) sched [] pairs).1.

(** The log records of the reporting loop for a list of pairs and results. *)
Definition report_trace (tasks : list Task.t) (sections : list TodoistSection.t)
    (items : list (TaskSectionAssignment * outcome)) : list event :=
  flat_map (λ item, (report (task_map_of tasks) (section_map_of sections) item).1)
           items.

(** The trace of lines 28-73 when both fetches and the agent succeed. *)
Definition trace_before_apply (project_id : string) (tps : list (list Task.t))
    (sps : list (list TodoistSection.t)) (output : SupportOutput) : list event :=
  [Log INFO "Starting task-section assignment process"; GetTasks project_id]
  ++ map (λ page, TasksPage (inr page)) tps
  ++ [Log INFO ("Found " +:+ pretty (length (non_assigned (concat tps)))
                  +:+ " tasks without section");
      GetSections project_id]
  ++ map (λ page, SectionsPage (inr page)) sps
  ++ [NewAgent None;
      Log INFO "Requesting AI agent to map tasks to sections";
      AgentRun (prompt_of (concat tps) (concat sps)) (inr output);
      Log INFO "Received mapping from AI agent, moving tasks to sections"].

(** ** Scenarios *)

Module Scenario.
Definition work := TodoistSection.mk "B1" "Work".
Definition home := TodoistSection.mk "B2" "Home".

Definition buy_milk := Task.mk "T1" "Buy milk" None.
Definition call_mum := Task.mk "T2" "Call mum" None.
Definition send_report := Task.mk "T3" "Send report" None.
Definition pay_rent := Task.mk "T4" "Pay rent" (Some "B2").
Definition water_plants := Task.mk "T5" "Water plants" (Some "B2").
Definition book_flight := Task.mk "T6" "Book flight" (Some "B1").

Definition assign (t s : string) : TaskSectionAssignment :=
  {| task_id := t; section_id := s |}.

(** An agent that answers every prompt with the given pairs. *)
Definition agent_returning (pairs : list TaskSectionAssignment) : Agent.t :=
  Agent.mk (λ _, inr {| task_to_sections := pairs |}).

(** An agent that cannot be reached. *)
Definition agent_down : Agent.t :=
  Agent.mk (λ _, inl (Exc "agent unavailable")).

(** An agent that cannot be built. *)
Definition agent_unbuildable : Agent.t :=
  Agent.unavailable (Exc "no API key").

(** One unassigned task, two sections, a server that accepts every move. *)
Definition store_milk : TodoistAPIAsync :=
  {| get_tasks := λ _, [inr [buy_milk]];
     get_sections := λ _, [inr [work; home]];
     move_task := λ _ _ _, inr true |}.

(** Six tasks on pages of sizes 2, 3 and 1, three of them unassigned; the
    server rejects every move of T2. *)
Definition store_pages : TodoistAPIAsync :=
  {| get_tasks := λ _, [inr [buy_milk; pay_rent];
                        inr [call_mum; water_plants; send_report];
                        inr [book_flight]];
     get_sections := λ _, [inr [work]; inr [home]];
     move_task := λ _ t _,
       if String.eqb t "T2" then inl (Exc "rejected") else inr true |}.

(** Every task already has a section; the section source is broken. *)
Definition store_assigned : TodoistAPIAsync :=
  {| get_tasks := λ _, [inr [pay_rent]; inr [water_plants; book_flight]];
     get_sections := λ _, [inl (Exc "sections unavailable")];
     move_task := λ _ _ _, inr true |}.

(** One unassigned task, two sections, a server on which every move is
    cancelled. *)
Definition store_cancelling : TodoistAPIAsync :=
  {| get_tasks := λ _, [inr [buy_milk]];
     get_sections := λ _, [inr [work; home]];
     move_task := λ _ _ _, inr (Cancelled "") |}.

(** The second page of sections cannot be read. *)
Definition store_broken_sections : TodoistAPIAsync :=
  {| get_tasks := λ _, [inr [buy_milk]];
     get_sections := λ _, [inr [work]; inl (Exc "page 2 unavailable"); inr [home]];
     move_task := λ _ _ _, inr true |}.
End Scenario.

(** ** The command line (main.py, lines 103-140) *)

(** [SystemExit]: the exit status and the message written to stderr. *)
Module SystemExit.
Record t := mk {
  code : nat;
  message : string
}.
End SystemExit.

(** The [argparse.Namespace] of the two options of lines 114-123:
    [--project-id] is required, so it is a string once parsing succeeded;
    [--api-key] is [None] when it is not given. *)
Module Namespace.
Record t := mk {
  project_id : string;
  api_key : option string
}.
End Namespace.

(** What [parse_args] reads from the process: what [parser.parse_args()]
    makes of the command line (the namespace, or the exit [argparse] takes
    on a usage error or on [--help]), the environment, and what
    [load_dotenv()] does to the environment. *)
Record Process := {
  parser_parse_args : SystemExit.t + Namespace.t;
  os_environ : gmap string string;
  load_dotenv : gmap string string → gmap string string
}.

(** [a or b] on [str | None]. *)
Definition or_ (a b : option string) : option string :=
  if not_ a then b else a.

(** [parser.error(message)]: exits with status 2. *)
Definition parser_error (message : string) : SystemExit.t :=
  SystemExit.mk 2 message.

(** [parse_args] (lines 103-132). The token is returned only when it is
    truthy; [parser.error] does not return. *)
Definition parse_args (proc : Process) : SystemExit.t + (string * string) :=
  let environ := load_dotenv proc (os_environ proc) in
  match parser_parse_args proc with
  | inl exit => inl exit
  | inr args =>
      let api_token := or_ (Namespace.api_key args) (environ !! "TODOIST_API_TOKEN") in
      match api_token with
      | None | Some "" =>
          inl (parser_error
                 "API key is required: pass --api-key or set TODOIST_API_TOKEN in the environment.")
      | Some api_token =>
          let project_id := Namespace.project_id args in
          inr (api_token, project_id)
      end
  end.

(** The script (lines 135-140): [new_client] is the constructor
    [TodoistAPIAsync], from the token to the client; [asyncio.run] runs
    [run] to its end and lets its exception through. *)
Definition main (proc : Process) (new_client : string → TodoistAPIAsync)
    (agent : Agent.t) (sched : list nat)
    : list event * (SystemExit.t + result unit) :=
  match parse_args proc with
  | inl exit => ([], inl exit)
  | inr (api_token, project_id) =>
      let todoist := new_client api_token in
      let '(tr, r) := run agent sched todoist project_id in
      (tr, inr r)
  end.

(** The exit status of the interpreter: that of [SystemExit], 1 for an
    exception nobody caught, 0 otherwise. *)
Definition exit_status (ending : SystemExit.t + result unit) : nat :=
  match ending with
  | inl exit => SystemExit.code exit
  | inr (Raise _) => 1
  | inr (Return _) => 0
  end.

(** ** Further observations on traces *)

(** The messages logged at level ERROR. *)
Definition error_lines (tr : list event) : list string :=
  omap (λ ev, match ev with Log ERROR msg => Some msg | _ => None end) tr.

(** The [move_task] calls whose result is an instance of [Exception]. *)
Definition failed_moves (tr : list event) : list (string * string) :=
  omap (λ ev, match ev with MoveTask t s (inl _) => Some (t, s) | _ => None end) tr.

(** The [move_task] calls that were cancelled: their result is an exception
    too, but no [Exception]. *)
Definition cancelled_moves (tr : list event) : list (string * string) :=
  omap (λ ev, match ev with
              | MoveTask t s (inr (Cancelled _)) => Some (t, s)
              | _ => None
              end) tr.

(** A message of the reporting loop: it starts as the format strings of
    lines 88 and 95 do. *)
Definition is_success_line (msg : string) : bool :=
  String.prefix "Successfully moved task '" msg.

Definition is_report_line (msg : string) : bool :=
  String.prefix "Failed to move task '" msg || is_success_line msg.

(** The records of the reporting loop in a trace, and among them those
    that report a move as done. *)
Definition report_lines (tr : list event) : list (Level * string) :=
  omap (λ ev, match ev with
              | Log lvl msg => if is_report_line msg then Some (lvl, msg) else None
              | _ => None
              end) tr.

Definition success_lines (tr : list event) : list string :=
  omap (λ ev, match ev with
              | Log INFO msg => if is_success_line msg then Some msg else None
              | _ => None
              end) tr.

(** The responses to the page requests for tasks, and for sections. *)
Definition task_pages (tr : list event) : list (Exception + list Task.t) :=
  omap (λ ev, match ev with TasksPage r => Some r | _ => None end) tr.

Definition section_pages (tr : list event)
    : list (Exception + list TodoistSection.t) :=
  omap (λ ev, match ev with SectionsPage r => Some r | _ => None end) tr.

(** The projects asked for, one entry per [get_tasks] or [get_sections]
    call. *)
Definition projects_requested (tr : list event) : list string :=
  omap (λ ev, match ev with
              | GetTasks p | GetSections p => Some p
              | _ => None
              end) tr.

(** [x in s] on strings. *)
Definition occurs_in (x s : string) : Prop :=
  ∃ before after, s = before +:+ x +:+ after.

(** The lines of the request for a task and for a section (lines 58, 61). *)
Definition task_line (task : Task.t) : string :=
  Task.content task +:+ " [TASK_ID: " +:+ Task.id task +:+ "]".

Definition section_line (section : TodoistSection.t) : string :=
  TodoistSection.name section +:+ " [SECTION_ID: "
    +:+ TodoistSection.id section +:+ "]".

(** A server whose answer to a call does not depend on the calls it served
    before. *)
Definition order_free (todoist : TodoistAPIAsync) : Prop :=
  ∀ served served' t s,
    move_task todoist served t s = move_task todoist served' t s.

(** A process for the scenarios: the given key on the command line, the
    given token in the environment, and a [.env] file that offers another
    token and does not override the environment. *)
Definition process_of (cli_key env_token : option string) : Process :=
  {| parser_parse_args := inr (Namespace.mk "P" cli_key);
     os_environ := match env_token with
                   | Some token => {[ "TODOIST_API_TOKEN" := token ]}
                   | None => ∅
                   end;
     load_dotenv := λ environ, environ ∪ {[ "TODOIST_API_TOKEN" := "from-dotenv" ]} |}.

(** ** Facts about the loops *)

Lemma pages_cases {A} (pages : list (Exception + list A)) :
  (∃ ps, pages = map inr ps)
  ∨ (∃ ps e rest, pages = map inr ps ++ inl e :: rest).
Proof.
  induction pages as [|[e|page] pages IH].
  - left. by exists [].
  - right. by exists [], e, pages.
  - destruct IH as [[ps ->]|(ps & e & rest & ->)].
    + left. by exists (page :: ps).
    + right. by exists (page :: ps), e, rest.
Qed.

(** A source that fails at no page is drained to the end: every page is
    requested, in order, and appended to the accumulator. *)
Lemma drain_ok {A} (page_event : Exception + list A → event) ps acc :
  drain page_event (map inr ps) acc
  = (map (λ page, page_event (inr page)) ps, Return (acc ++ concat ps)).
Proof.
  revert acc. induction ps as [|page ps IH]; intros acc; simpl.
  - by rewrite app_nil_r.
  - rewrite IH. by rewrite <- app_assoc.
Qed.

(** The first failing page ends the loop with its exception; the pages
    after it are never requested. *)
Lemma drain_failed {A} (page_event : Exception + list A → event) ps e rest acc :
  drain page_event (map inr ps ++ inl e :: rest) acc
  = (map (λ page, page_event (inr page)) ps ++ [page_event (inl e)], Raise e).
Proof.
  revert acc. induction ps as [|page ps IH]; intros acc; simpl; [done|].
  by rewrite IH.
Qed.

Lemma for_each_report task_map section_map items :
  for_each items (report task_map section_map)
  = (flat_map (λ item, (report task_map section_map item).1) items, Return tt).
Proof.
  induction items as [|[pr [exc|b]] items IH]; simpl; [done|..];
    by rewrite IH.
Qed.

(** Every report is one log record. *)
Lemma report_one_line task_map section_map item :
  ∃ lvl msg, report task_map section_map item = ([Log lvl msg], Return tt).
Proof. destruct item as [pr [exc|b]]; simpl; eauto. Qed.

Section GatherFacts.
Variable todoist : TodoistAPIAsync.

Lemma zip_with_reinsert (pending : list TaskSectionAssignment) (rs : list outcome)
    k pr r :
  pending !! k = Some pr →
  length rs = length (delete k pending) →
  zip_with move_event pending (take k rs ++ r :: drop k rs)
  ≡ₚ move_event pr r :: zip_with move_event (delete k pending) rs.
Proof.
  intros Hk Hlen.
  assert (k < length pending) as Hlt by by eapply lookup_lt_Some.
  rewrite length_delete in Hlen; [|by eauto].
  rewrite <- (take_drop_middle pending k pr Hk) at 1.
  rewrite delete_take_drop.
  rewrite <- (take_drop k rs) at 3.
  rewrite !zip_with_app by (rewrite !length_take; lia).
  simpl. by rewrite Permutation_middle.
Qed.

(** With one step per pending call, [gather_loop] serves every pending
    call exactly once and leaves each answer at the position of its call. *)
Lemma gather_loop_spec n sched served pending :
  length pending = n →
  length (gather_loop todoist n sched served pending).2 = length pending
  ∧ (gather_loop todoist n sched served pending).1
    ≡ₚ zip_with move_event pending (gather_loop todoist n sched served pending).2.
Proof.
  revert sched served pending.
  induction n as [|n IH]; intros sched served pending Hlen; simpl.
  { destruct pending; [done|discriminate]. }
  assert (hd 0 sched `mod` length pending < length pending) as Hk
    by (apply Nat.mod_upper_bound; lia).
  destruct (lookup_lt_is_Some_2 _ _ Hk) as [pr Hpr]. rewrite Hpr.
  specialize (IH (tl sched) (served ++ [call_of pr])
                 (delete (hd 0 sched `mod` length pending) pending)).
  unfold call_of in IH.
  destruct (gather_loop todoist n _ _ _) as [tr rs]; simpl in *.
  destruct IH as [IHlen IHperm].
  { rewrite length_delete; [lia|by eauto]. }
  split.
  - rewrite length_app; simpl. rewrite length_take, length_drop.
    rewrite IHlen, length_delete by eauto. lia.
  - rewrite zip_with_reinsert by done. by rewrite IHperm.
Qed.

(** The answer recorded for a call is the server's answer to that call,
    given the calls it served before. *)
Lemma gather_loop_answers n sched served pending before t s r after :
  (gather_loop todoist n sched served pending).1
    = before ++ MoveTask t s r :: after →
  r = move_task todoist (served ++ move_calls before) t s.
Proof.
  revert sched served pending before.
  induction n as [|n IH]; intros sched served pending before; simpl.
  { by destruct before. }
  destruct (pending !! _) as [pr|]; [|by destruct before].
  specialize (IH (tl sched) (served ++ [(task_id pr, section_id pr)])
                 (delete (hd 0 sched `mod` length pending) pending)).
  destruct (gather_loop todoist n _ _ _) as [tr rs]; simpl in *.
  destruct before as [|ev before]; simpl; intros Heq.
  - simplify_eq. by rewrite app_nil_r.
  - simplify_eq. simpl. erewrite IH by done. by rewrite <- app_assoc.
Qed.

(** [gather] never raises. *)
Lemma gather_returns sched pairs :
  ∃ tr rs, gather todoist sched pairs = (tr, Return rs).
Proof.
  unfold gather. destruct (gather_loop _ _ _ _ _) as [tr rs]. eauto.
Qed.
End GatherFacts.

(** ** The six ways [run] can go *)

Section RunCases.
Variables (agent : Agent.t) (sched : list nat).
Variables (todoist : TodoistAPIAsync) (project_id : string).

Lemma run_tasks_failed tps e rest :
  get_tasks todoist project_id = map inr tps ++ inl e :: rest →
  run agent sched todoist project_id
  = ([Log INFO "Starting task-section assignment process"; GetTasks project_id]
     ++ map (λ page, TasksPage (inr page)) tps ++ [TasksPage (inl e)],
     Raise e).
Proof.
  intros Htasks. unfold run. rewrite Htasks, drain_failed. reflexivity.
Qed.

Lemma run_noop tps :
  get_tasks todoist project_id = map inr tps →
  non_assigned (concat tps) = [] →
  run agent sched todoist project_id
  = ([Log INFO "Starting task-section assignment process"; GetTasks project_id]
     ++ map (λ page, TasksPage (inr page)) tps
     ++ [Log INFO "All tasks already have sections assigned"],
     Return tt).
Proof.
  intros Htasks Hnone. unfold run. rewrite Htasks, drain_ok. simpl.
  rewrite Hnone. reflexivity.
Qed.

Lemma run_sections_failed tps sps e rest :
  get_tasks todoist project_id = map inr tps →
  non_assigned (concat tps) ≠ [] →
  get_sections todoist project_id = map inr sps ++ inl e :: rest →
  run agent sched todoist project_id
  = ([Log INFO "Starting task-section assignment process"; GetTasks project_id]
     ++ map (λ page, TasksPage (inr page)) tps
     ++ [Log INFO ("Found " +:+ pretty (length (non_assigned (concat tps)))
                     +:+ " tasks without section");
         GetSections project_id]
     ++ map (λ page, SectionsPage (inr page)) sps ++ [SectionsPage (inl e)],
     Raise e).
Proof.
  intros Htasks Hsome Hsections. unfold run.
  rewrite Htasks, drain_ok. simpl.
  destruct (non_assigned (concat tps)) as [|task0 others] eqn:Hna; [done|].
  rewrite Hsections, drain_failed. simpl.
  by rewrite <- ?app_assoc.
Qed.

(** An agent that returned an output had been built. *)
Lemma agent_returned_built prompt output :
  Agent.run agent prompt = inr output → Agent.new agent = None.
Proof. by destruct agent. Qed.

Lemma run_agent_unavailable tps sps e :
  get_tasks todoist project_id = map inr tps →
  non_assigned (concat tps) ≠ [] →
  get_sections todoist project_id = map inr sps →
  Agent.new agent = Some e →
  run agent sched todoist project_id
  = ([Log INFO "Starting task-section assignment process"; GetTasks project_id]
     ++ map (λ page, TasksPage (inr page)) tps
     ++ [Log INFO ("Found " +:+ pretty (length (non_assigned (concat tps)))
                     +:+ " tasks without section");
         GetSections project_id]
     ++ map (λ page, SectionsPage (inr page)) sps
     ++ [NewAgent (Some e)],
     Raise e).
Proof.
  intros Htasks Hsome Hsections Hnew. unfold run.
  rewrite Htasks, drain_ok. simpl.
  destruct (non_assigned (concat tps)) as [|task0 others] eqn:Hna; [done|].
  rewrite Hsections, drain_ok. simpl.
  rewrite Hnew. simpl.
  by rewrite <- ?app_assoc.
Qed.

Lemma run_agent_failed tps sps e :
  get_tasks todoist project_id = map inr tps →
  non_assigned (concat tps) ≠ [] →
  get_sections todoist project_id = map inr sps →
  Agent.new agent = None →
  Agent.run agent (prompt_of (concat tps) (concat sps)) = inl e →
  run agent sched todoist project_id
  = ([Log INFO "Starting task-section assignment process"; GetTasks project_id]
     ++ map (λ page, TasksPage (inr page)) tps
     ++ [Log INFO ("Found " +:+ pretty (length (non_assigned (concat tps)))
                     +:+ " tasks without section");
         GetSections project_id]
     ++ map (λ page, SectionsPage (inr page)) sps
     ++ [NewAgent None;
         Log INFO "Requesting AI agent to map tasks to sections";
         AgentRun (prompt_of (concat tps) (concat sps)) (inl e)],
     Raise e).
Proof.
  intros Htasks Hsome Hsections Hnew Hagent. unfold run.
  rewrite Htasks, drain_ok. simpl.
  unfold prompt_of in *.
  destruct (non_assigned (concat tps)) as [|task0 others] eqn:Hna; [done|].
  rewrite Hsections, drain_ok. simpl.
  rewrite Hnew. simpl. rewrite Hagent. simpl.
  by rewrite <- ?app_assoc.
Qed.

Lemma run_applied tps sps output :
  get_tasks todoist project_id = map inr tps →
  non_assigned (concat tps) ≠ [] →
  get_sections todoist project_id = map inr sps →
  Agent.run agent (prompt_of (concat tps) (concat sps)) = inr output →
  run agent sched todoist project_id
  = (trace_before_apply project_id tps sps output
     ++ gather_trace todoist sched (task_to_sections output)
     ++ report_trace (concat tps) (concat sps)
          (zip (task_to_sections output)
               (gather_results todoist sched (task_to_sections output)))
     ++ [Log INFO "Task-section assignment process completed"],
     Return tt).
Proof.
  intros Htasks Hsome Hsections Hagent. unfold run.
  rewrite Htasks, drain_ok. simpl.
  unfold trace_before_apply, prompt_of in *.
  destruct (non_assigned (concat tps)) as [|task0 others] eqn:Hna; [done|].
  rewrite Hsections, drain_ok. simpl.
  rewrite (agent_returned_built _ _ Hagent). simpl. rewrite Hagent. simpl.
  unfold gather, gather_trace, gather_results, report_trace.
  destruct (gather_loop todoist _ sched [] _) as [tr rs]. simpl.
  rewrite for_each_report. simpl.
  rewrite <- ?app_assoc. simpl. by rewrite <- ?app_assoc.
Qed.
End RunCases.

(** ** What the parts of a trace contain *)

Lemma omap_none {A B} (f : A → option B) (l : list A) :
  Forall (λ x, f x = None) l → omap f l = [].
Proof. induction 1 as [|x l Hx _ IH]; simpl; [done|]. by rewrite Hx. Qed.

Lemma omap_map_none {A B C} (f : B → option C) (g : A → B) (l : list A) :
  (∀ x, f (g x) = None) → omap f (map g l) = [].
Proof. intros Hfg. induction l as [|x l IH]; simpl; [done|]. by rewrite Hfg. Qed.

Lemma move_events_app tr1 tr2 :
  move_events (tr1 ++ tr2) = move_events tr1 ++ move_events tr2.
Proof. apply omap_app. Qed.

Lemma move_calls_app tr1 tr2 :
  move_calls (tr1 ++ tr2) = move_calls tr1 ++ move_calls tr2.
Proof. apply omap_app. Qed.

Lemma log_lines_app tr1 tr2 :
  log_lines (tr1 ++ tr2) = log_lines tr1 ++ log_lines tr2.
Proof. apply omap_app. Qed.

Lemma report_trace_logs tasks sections items :
  Forall (λ ev, ∃ lvl msg, ev = Log lvl msg) (report_trace tasks sections items).
Proof.
  unfold report_trace. induction items as [|item items IH]; simpl; [done|].
  destruct (report_one_line (task_map_of tasks) (section_map_of sections) item)
    as (lvl & msg & ->).
  simpl. constructor; eauto.
Qed.

Lemma report_trace_no_moves tasks sections items :
  move_events (report_trace tasks sections items) = []
  ∧ move_calls (report_trace tasks sections items) = [].
Proof.
  split; apply omap_none;
    (eapply Forall_impl; [apply report_trace_logs|]);
    by intros ev (lvl & msg & ->).
Qed.

Lemma before_apply_no_moves project_id tps sps output :
  move_events (trace_before_apply project_id tps sps output) = []
  ∧ move_calls (trace_before_apply project_id tps sps output) = [].
Proof.
  unfold trace_before_apply, move_events, move_calls.
  rewrite !omap_app, !omap_map_none by done. done.
Qed.

Lemma before_apply_log_lines project_id tps sps output :
  log_lines (trace_before_apply project_id tps sps output)
  = [(INFO, "Starting task-section assignment process");
     (INFO, "Found " +:+ pretty (length (non_assigned (concat tps)))
              +:+ " tasks without section");
     (INFO, "Requesting AI agent to map tasks to sections");
     (INFO, "Received mapping from AI agent, moving tasks to sections")].
Proof.
  unfold trace_before_apply, log_lines.
  rewrite !omap_app, !omap_map_none by done. done.
Qed.

Lemma move_events_zip (pairs : list TaskSectionAssignment) (rs : list outcome) :
  move_events (zip_with move_event pairs rs) = zip_with move_event pairs rs.
Proof.
  revert rs. induction pairs as [|pr pairs IH]; intros [|r rs]; simpl; [done..|].
  unfold move_events in IH. by rewrite IH.
Qed.

Lemma move_calls_zip (pairs : list TaskSectionAssignment) (rs : list outcome) :
  length rs = length pairs →
  move_calls (zip_with move_event pairs rs) = map call_of pairs.
Proof.
  revert rs. induction pairs as [|pr pairs IH]; intros [|r rs] Hlen;
    simpl in *; [done..|].
  unfold move_calls in IH. rewrite IH by lia. done.
Qed.

Lemma gather_results_length todoist sched pairs :
  length (gather_results todoist sched pairs) = length pairs.
Proof. unfold gather_results. by apply gather_loop_spec. Qed.

Lemma gather_trace_perm todoist sched pairs :
  gather_trace todoist sched pairs
  ≡ₚ zip_with move_event pairs (gather_results todoist sched pairs).
Proof. unfold gather_trace, gather_results. by apply gather_loop_spec. Qed.

Lemma omap_gather_trace {B} (f : event → option B) todoist sched pairs :
  (∀ t s r, f (MoveTask t s r) = None) →
  omap f (gather_trace todoist sched pairs) = [].
Proof.
  intros Hf. apply omap_none, Forall_forall. intros ev Hev.
  rewrite gather_trace_perm in Hev.
  apply elem_of_lookup_zip_with in Hev as (i & pr & r & -> & _). apply Hf.
Qed.

Lemma omap_report_trace {B} (f : event → option B) tasks sections items :
  (∀ lvl msg, f (Log lvl msg) = None) →
  omap f (report_trace tasks sections items) = [].
Proof.
  intros Hf. apply omap_none.
  eapply Forall_impl; [apply report_trace_logs|].
  intros ev (lvl & msg & ->). apply Hf.
Qed.

(** Evaluates an observation on a trace given part by part. *)
Ltac observe :=
  unfold trace_before_apply, move_calls, move_events, agent_calls,
    section_requests, log_lines, fetch_errors, classification_errors,
    construction_errors;
  cbn [fst snd];
  rewrite ?omap_app;
  rewrite ?omap_map_none, ?omap_gather_trace, ?omap_report_trace by done;
  simpl.

(** The log records of the reporting loop, one by one. *)
Lemma report_trace_lookup tasks sections items i item lvl msg :
  items !! i = Some item →
  report (task_map_of tasks) (section_map_of sections) item
    = ([Log lvl msg], Return tt) →
  log_lines (report_trace tasks sections items) !! i = Some (lvl, msg).
Proof.
  unfold report_trace.
  revert i. induction items as [|item0 items IH]; intros [|i] Hi Hrep;
    simpl in *; [done..| |].
  - simplify_eq. by rewrite Hrep.
  - destruct (report_one_line (task_map_of tasks) (section_map_of sections) item0)
      as (lvl0 & msg0 & ->).
    simpl. by apply IH.
Qed.

Lemma report_trace_length tasks sections items :
  length (log_lines (report_trace tasks sections items)) = length items.
Proof.
  unfold report_trace. induction items as [|item items IH]; simpl; [done|].
  destruct (report_one_line (task_map_of tasks) (section_map_of sections) item)
    as (lvl & msg & ->).
  simpl. by rewrite IH.
Qed.

(** ** The apply phase in the trace of [run] *)

Section Applied.
Variables (agent : Agent.t) (sched : list nat).
Variables (todoist : TodoistAPIAsync) (project_id : string).
Variables (tps : list (list Task.t)) (sps : list (list TodoistSection.t)).
Variable output : SupportOutput.
Hypothesis tasks_fetched : get_tasks todoist project_id = map inr tps.
Hypothesis some_unassigned : non_assigned (concat tps) ≠ [].
Hypothesis sections_fetched : get_sections todoist project_id = map inr sps.
Hypothesis classified :
  Agent.run agent (prompt_of (concat tps) (concat sps)) = inr output.

Let pairs := task_to_sections output.
Let results := gather_results todoist sched pairs.
Let tr := (run agent sched todoist project_id).1.

Lemma applied_move_events : move_events tr ≡ₚ zip_with move_event pairs results.
Proof.
  unfold tr. rewrite (run_applied _ _ _ _ tps sps output) by done. cbn [fst].
  rewrite !move_events_app.
  rewrite (proj1 (before_apply_no_moves _ _ _ _)).
  rewrite (proj1 (report_trace_no_moves _ _ _)). simpl.
  rewrite app_nil_r.
  unfold move_events at 1. rewrite gather_trace_perm.
  apply reflexive_eq, move_events_zip.
Qed.

Lemma applied_move_calls : move_calls tr ≡ₚ map call_of pairs.
Proof.
  unfold tr. rewrite (run_applied _ _ _ _ tps sps output) by done. cbn [fst].
  rewrite !move_calls_app.
  rewrite (proj2 (before_apply_no_moves _ _ _ _)).
  rewrite (proj2 (report_trace_no_moves _ _ _)). simpl.
  rewrite app_nil_r.
  unfold move_calls at 1. rewrite gather_trace_perm.
  apply reflexive_eq, move_calls_zip, gather_results_length.
Qed.

Lemma applied_log_lines :
  log_lines tr
  = [(INFO, "Starting task-section assignment process");
     (INFO, "Found " +:+ pretty (length (non_assigned (concat tps)))
              +:+ " tasks without section");
     (INFO, "Requesting AI agent to map tasks to sections");
     (INFO, "Received mapping from AI agent, moving tasks to sections")]
    ++ log_lines (report_trace (concat tps) (concat sps) (zip pairs results))
    ++ [(INFO, "Task-section assignment process completed")].
Proof.
  unfold tr. rewrite (run_applied _ _ _ _ tps sps output) by done. cbn [fst].
  rewrite !log_lines_app, before_apply_log_lines.
  replace (log_lines (gather_trace todoist sched (task_to_sections output)))
    with (@nil (Level * string)); [done|].
  symmetry. apply omap_none.
  eapply Forall_forall. intros ev Hev.
  rewrite gather_trace_perm in Hev.
  apply elem_of_lookup_zip_with in Hev as (i & pr & r & -> & _). done.
Qed.

Lemma applied_returns : (run agent sched todoist project_id).2 = Return tt.
Proof. by rewrite (run_applied _ _ _ _ tps sps output). Qed.

(** The pair at position [i] is served once, whatever it refers to, and
    the server's answer is the result at position [i]. *)
Lemma applied_call_lookup i pr :
  pairs !! i = Some pr →
  ∃ r, results !! i = Some r
       ∧ move_event pr r ∈ tr
       ∧ ∃ served, r = move_task todoist served (task_id pr) (section_id pr).
Proof.
  intros Hi.
  destruct (lookup_lt_is_Some_2 results i) as [r Hr].
  { unfold results. rewrite gather_results_length. by eapply lookup_lt_Some. }
  exists r. split; [done|].
  assert (move_event pr r ∈ gather_trace todoist sched pairs) as Hin.
  { rewrite gather_trace_perm. apply elem_of_lookup_zip_with. by exists i, pr, r. }
  split.
  - unfold tr. rewrite (run_applied _ _ _ _ tps sps output) by done. cbn [fst].
    rewrite !elem_of_app. auto.
  - apply list_elem_of_split in Hin as (before & after & Hsplit).
    exists (move_calls before).
    by apply (gather_loop_answers _ _ _ _ _ _ _ _ _ _ Hsplit).
Qed.

(** The log record at position [i] of the reporting loop is the one for
    the pair and the result at position [i]. *)
Lemma applied_report_lookup i pr r lvl msg :
  pairs !! i = Some pr →
  results !! i = Some r →
  report (task_map_of (concat tps)) (section_map_of (concat sps)) (pr, r)
    = ([Log lvl msg], Return tt) →
  log_lines (report_trace (concat tps) (concat sps) (zip pairs results)) !! i
    = Some (lvl, msg).
Proof.
  intros Hi Hr Hrep. eapply report_trace_lookup; [|done].
  apply lookup_zip_with_Some. by exists pr, r.
Qed.
End Applied.

(** * The claims *)

(** C1, as stated, fails: the snapshot has sections B1 and B2 only, the
    agent returns the pair (T1, B999), and still one [move_task] call for
    (T1, B999) is made; as the server accepts it, the pair is reported as
    moved. *)
Lemma C1_unknown_section_is_moved :
  ("B999" ∉ section_ids [Scenario.work; Scenario.home])
  ∧ move_calls
      (run (Scenario.agent_returning [Scenario.assign "T1" "B999"]) []
           Scenario.store_milk "P").1
    = [("T1", "B999")]
  ∧ ((INFO, "Successfully moved task 'Buy milk' to section 'B999'")
     ∈ log_lines
         (run (Scenario.agent_returning [Scenario.assign "T1" "B999"]) []
              Scenario.store_milk "P").1).
Proof.
  split; [|split].
  - unfold section_ids. simpl. rewrite !elem_of_cons, elem_of_nil.
    intros [?|[?|[]]]; discriminate.
  - by vm_compute.
  - apply list_elem_of_In. vm_compute. tauto.
Qed.

(** C1, amended: no pair is checked against the snapshot. Every pair the
    agent returns, whether or not its task ID and section ID are in the
    snapshot, is passed to the apply phase, one [move_task] call per pair,
    and its record in the log of the run is the one for the result of its
    own call. The record names the task and the section by their labels, or
    by the ID when the snapshot has none for it. It is an ERROR record that
    ends with the text of the exception exactly when the result is an
    instance of [Exception]; otherwise, also when the call returned [False]
    or was cancelled, it reports the task as moved. *)
Theorem C1_every_proposal_is_moved agent sched todoist project_id tps sps output :
  get_tasks todoist project_id = map inr tps →
  non_assigned (concat tps) ≠ [] →
  get_sections todoist project_id = map inr sps →
  Agent.run agent (prompt_of (concat tps) (concat sps)) = inr output →
  move_calls (run agent sched todoist project_id).1
    ≡ₚ map call_of (task_to_sections output)
  ∧ ∀ i pr, task_to_sections output !! i = Some pr →
      ∃ r,
        gather_results todoist sched (task_to_sections output) !! i = Some r
        ∧ move_event pr r ∈ (run agent sched todoist project_id).1
        ∧ log_lines (run agent sched todoist project_id).1 !! (4 + i)
          = Some
              match r with
              | inl exc =>
                  (ERROR,
                   "Failed to move task '"
                     +:+ dict_get (task_map_of (concat tps)) (task_id pr) (task_id pr)
                     +:+ "' to section '"
                     +:+ dict_get (section_map_of (concat sps))
                           (section_id pr) (section_id pr)
                     +:+ "': " +:+ str exc)
              | inr _ =>
                  (INFO,
                   "Successfully moved task '"
                     +:+ dict_get (task_map_of (concat tps)) (task_id pr) (task_id pr)
                     +:+ "' to section '"
                     +:+ dict_get (section_map_of (concat sps))
                           (section_id pr) (section_id pr)
                     +:+ "'")
              end.
Proof.
  intros Htasks Hsome Hsections Hagent. split.
  { by eapply applied_move_calls. }
  intros i pr Hi.
  destruct (applied_call_lookup agent sched todoist project_id tps sps output
              Htasks Hsome Hsections Hagent i pr Hi) as (r & Hr & Hin & _).
  exists r. split; [done|]. split; [done|].
  rewrite (applied_log_lines agent sched todoist project_id tps sps output)
    by done.
  change (4 + i) with (S (S (S (S i)))). simpl.
  rewrite lookup_app_l.
  2:{ rewrite report_trace_length, length_zip_with, gather_results_length.
      apply lookup_lt_Some in Hi. lia. }
  destruct r as [exc|value];
    (eapply applied_report_lookup; [done|done|reflexivity]).
Qed.

Lemma C1_every_proposal_is_moved_witness :
  move_calls
    (run (Scenario.agent_returning [Scenario.assign "T1" "B999"]) []
         Scenario.store_milk "P").1
  ≡ₚ [("T1", "B999")].
Proof.
  apply (C1_every_proposal_is_moved
           (Scenario.agent_returning [Scenario.assign "T1" "B999"]) []
           Scenario.store_milk "P"
           [[Scenario.buy_milk]] [[Scenario.work; Scenario.home]]
           {| task_to_sections := [Scenario.assign "T1" "B999"] |});
    [reflexivity | vm_compute; discriminate | reflexivity | reflexivity].
Defined.

(** C2: when the call for the pair at position [k] raises, the run still
    returns normally, every pair is served exactly once, and every other
    pair has the server's answer to its own call as its result. *)
Theorem C2_failure_isolation agent sched todoist project_id tps sps output
    k failed exc :
  get_tasks todoist project_id = map inr tps →
  non_assigned (concat tps) ≠ [] →
  get_sections todoist project_id = map inr sps →
  Agent.run agent (prompt_of (concat tps) (concat sps)) = inr output →
  task_to_sections output !! k = Some failed →
  gather_results todoist sched (task_to_sections output) !! k = Some (inl exc) →
  (run agent sched todoist project_id).2 = Return tt
  ∧ move_events (run agent sched todoist project_id).1
    ≡ₚ zip_with move_event (task_to_sections output)
         (gather_results todoist sched (task_to_sections output))
  ∧ ∀ j pr, j ≠ k → task_to_sections output !! j = Some pr →
      ∃ r, gather_results todoist sched (task_to_sections output) !! j = Some r
           ∧ move_event pr r ∈ (run agent sched todoist project_id).1
           ∧ ∃ served, r = move_task todoist served (task_id pr) (section_id pr).
Proof.
  intros Htasks Hsome Hsections Hagent _ _. split; [|split].
  - by eapply applied_returns.
  - by eapply applied_move_events.
  - intros j pr _ Hj. by eapply applied_call_lookup.
Qed.

(** Three pairs, the call for the second one is rejected, and the calls are
    served out of order: the first and the third are moved. *)
Lemma C2_failure_isolation_witness :
  (run (Scenario.agent_returning
          [Scenario.assign "T1" "B2"; Scenario.assign "T2" "B1";
           Scenario.assign "T3" "B1"])
       [2; 1] Scenario.store_pages "P").2 = Return tt
  ∧ gather_results Scenario.store_pages [2; 1]
      [Scenario.assign "T1" "B2"; Scenario.assign "T2" "B1";
       Scenario.assign "T3" "B1"]
    = [inr (Returned true); inl (Exc "rejected"); inr (Returned true)].
Proof.
  split; [|reflexivity].
  apply (C2_failure_isolation
           (Scenario.agent_returning
              [Scenario.assign "T1" "B2"; Scenario.assign "T2" "B1";
               Scenario.assign "T3" "B1"])
           [2; 1] Scenario.store_pages "P"
           [[Scenario.buy_milk; Scenario.pay_rent];
            [Scenario.call_mum; Scenario.water_plants; Scenario.send_report];
            [Scenario.book_flight]]
           [[Scenario.work]; [Scenario.home]]
           {| task_to_sections :=
                [Scenario.assign "T1" "B2"; Scenario.assign "T2" "B1";
                 Scenario.assign "T3" "B1"] |}
           1 (Scenario.assign "T2" "B1") (Exc "rejected"));
    [reflexivity | vm_compute; discriminate | reflexivity | reflexivity
    | reflexivity | reflexivity].
Defined.

(** C3: the apply phase leaves one result per pair, at the position of the
    pair, and the report has one log record per pair, in the order of the
    pairs, between the records of the steps before and the closing record. *)
Theorem C3_one_outcome_one_line agent sched todoist project_id tps sps output :
  get_tasks todoist project_id = map inr tps →
  non_assigned (concat tps) ≠ [] →
  get_sections todoist project_id = map inr sps →
  Agent.run agent (prompt_of (concat tps) (concat sps)) = inr output →
  length (gather_results todoist sched (task_to_sections output))
    = length (task_to_sections output)
  ∧ move_events (run agent sched todoist project_id).1
    ≡ₚ zip_with move_event (task_to_sections output)
         (gather_results todoist sched (task_to_sections output))
  ∧ log_lines (run agent sched todoist project_id).1
    = [(INFO, "Starting task-section assignment process");
       (INFO, "Found " +:+ pretty (length (non_assigned (concat tps)))
                +:+ " tasks without section");
       (INFO, "Requesting AI agent to map tasks to sections");
       (INFO, "Received mapping from AI agent, moving tasks to sections")]
      ++ log_lines (report_trace (concat tps) (concat sps)
                      (zip (task_to_sections output)
                           (gather_results todoist sched (task_to_sections output))))
      ++ [(INFO, "Task-section assignment process completed")]
  ∧ length (log_lines (report_trace (concat tps) (concat sps)
                         (zip (task_to_sections output)
                              (gather_results todoist sched (task_to_sections output)))))
    = length (task_to_sections output)
  ∧ ∀ i pr, task_to_sections output !! i = Some pr →
      ∃ r lvl msg,
        gather_results todoist sched (task_to_sections output) !! i = Some r
        ∧ report (task_map_of (concat tps)) (section_map_of (concat sps)) (pr, r)
          = ([Log lvl msg], Return tt)
        ∧ log_lines (report_trace (concat tps) (concat sps)
                       (zip (task_to_sections output)
                            (gather_results todoist sched (task_to_sections output))))
            !! i = Some (lvl, msg).
Proof.
  intros Htasks Hsome Hsections Hagent.
  split; [apply gather_results_length|].
  split; [by eapply applied_move_events|].
  split; [by eapply applied_log_lines|].
  split.
  { rewrite report_trace_length, length_zip_with, gather_results_length. lia. }
  intros i pr Hi.
  destruct (lookup_lt_is_Some_2
              (gather_results todoist sched (task_to_sections output)) i) as [r Hr].
  { rewrite gather_results_length. by eapply lookup_lt_Some. }
  destruct (report_one_line (task_map_of (concat tps)) (section_map_of (concat sps))
              (pr, r)) as (lvl & msg & Hrep).
  exists r, lvl, msg. split; [done|]. split; [done|].
  by eapply applied_report_lookup.
Qed.

Lemma C3_one_outcome_one_line_witness :
  log_lines
    (run (Scenario.agent_returning
            [Scenario.assign "T1" "B2"; Scenario.assign "T2" "B1";
             Scenario.assign "T3" "B1"])
         [2; 1] Scenario.store_pages "P").1
  = [(INFO, "Starting task-section assignment process");
     (INFO, "Found 3 tasks without section");
     (INFO, "Requesting AI agent to map tasks to sections");
     (INFO, "Received mapping from AI agent, moving tasks to sections");
     (INFO, "Successfully moved task 'Buy milk' to section 'Home'");
     (ERROR, "Failed to move task 'Call mum' to section 'Work': rejected");
     (INFO, "Successfully moved task 'Send report' to section 'Work'");
     (INFO, "Task-section assignment process completed")].
Proof.
  etransitivity.
  - apply (C3_one_outcome_one_line
             (Scenario.agent_returning
                [Scenario.assign "T1" "B2"; Scenario.assign "T2" "B1";
                 Scenario.assign "T3" "B1"])
             [2; 1] Scenario.store_pages "P"
             [[Scenario.buy_milk; Scenario.pay_rent];
              [Scenario.call_mum; Scenario.water_plants; Scenario.send_report];
              [Scenario.book_flight]]
             [[Scenario.work]; [Scenario.home]]
             {| task_to_sections :=
                  [Scenario.assign "T1" "B2"; Scenario.assign "T2" "B1";
                   Scenario.assign "T3" "B1"] |});
      [reflexivity | vm_compute; discriminate | reflexivity | reflexivity].
  - vm_compute. reflexivity.
Defined.

(** C8: pairs for the same task are not merged. The [move_task] calls
    made are the pairs the agent returned, each with its own task and its own
    section and as often as it was returned, and each call has a result of
    its own; so for every pair, and for every task ID, as many calls are made
    as the agent returned pairs for it. *)
Theorem C8_duplicates_are_all_moved agent sched todoist project_id tps sps output t :
  get_tasks todoist project_id = map inr tps →
  non_assigned (concat tps) ≠ [] →
  get_sections todoist project_id = map inr sps →
  Agent.run agent (prompt_of (concat tps) (concat sps)) = inr output →
  move_calls (run agent sched todoist project_id).1
    ≡ₚ map call_of (task_to_sections output)
  ∧ move_events (run agent sched todoist project_id).1
    ≡ₚ zip_with move_event (task_to_sections output)
         (gather_results todoist sched (task_to_sections output))
  ∧ (∀ call,
       length (filter (λ c, c = call) (move_calls (run agent sched todoist project_id).1))
       = length (filter (λ pr, call_of pr = call) (task_to_sections output)))
  ∧ length (filter (λ call, call.1 = t) (move_calls (run agent sched todoist project_id).1))
    = length (filter (λ pr, task_id pr = t) (task_to_sections output)).
Proof.
  intros Htasks Hsome Hsections Hagent.
  split; [by eapply applied_move_calls|].
  split; [by eapply applied_move_events|].
  split.
  - intros call.
    rewrite (applied_move_calls agent sched todoist project_id tps sps output)
      by done.
    induction (task_to_sections output) as [|pr pairs IH]; simpl; [done|].
    rewrite !filter_cons.
    repeat case_decide; simpl; try congruence; by rewrite IH.
  - rewrite (applied_move_calls agent sched todoist project_id tps sps output)
      by done.
    induction (task_to_sections output) as [|pr pairs IH]; simpl; [done|].
    rewrite !filter_cons. simpl.
    destruct (decide (task_id pr = t)); simpl; by rewrite IH.
Qed.

(** Buy milk is proposed for both sections: two calls are made for it. *)
Lemma C8_duplicates_are_all_moved_witness :
  move_calls
    (run (Scenario.agent_returning
            [Scenario.assign "T1" "B1"; Scenario.assign "T1" "B2"])
         [] Scenario.store_milk "P").1
  ≡ₚ [("T1", "B1"); ("T1", "B2")].
Proof.
  apply (C8_duplicates_are_all_moved
           (Scenario.agent_returning
              [Scenario.assign "T1" "B1"; Scenario.assign "T1" "B2"])
           [] Scenario.store_milk "P"
           [[Scenario.buy_milk]] [[Scenario.work; Scenario.home]]
           {| task_to_sections :=
                [Scenario.assign "T1" "B1"; Scenario.assign "T1" "B2"] |} "T1");
    [reflexivity | vm_compute; discriminate | reflexivity | reflexivity].
Defined.

(** ** The run as a whole *)

Lemma non_assigned_nil tasks :
  (∀ task, task ∈ tasks → ∃ s, Task.section_id task = Some s ∧ s ≠ "") →
  non_assigned tasks = [].
Proof.
  induction tasks as [|task tasks IH]; intros Hall; simpl; [done|].
  destruct (Hall task) as (s & Hs & Hne); [by left|].
  rewrite Hs. destruct s as [|c s]; [done|]. simpl.
  apply IH. intros task' Hin. apply Hall. by right.
Qed.

(** The agent is invoked at most once, with the request built from all
    the pages of both sources. *)
Lemma run_agent_calls agent sched todoist project_id :
  agent_calls (run agent sched todoist project_id).1 = []
  ∨ ∃ tps sps,
      get_tasks todoist project_id = map inr tps
      ∧ get_sections todoist project_id = map inr sps
      ∧ agent_calls (run agent sched todoist project_id).1
        = [prompt_of (concat tps) (concat sps)].
Proof.
  destruct (pages_cases (get_tasks todoist project_id))
    as [[tps Htasks]|(tps & e & rest & Htasks)];
    [|left; rewrite (run_tasks_failed _ _ _ _ _ _ _ Htasks); by observe].
  destruct (decide (non_assigned (concat tps) = [])) as [Hnone|Hsome];
    [left; rewrite (run_noop _ _ _ _ _ Htasks Hnone); by observe|].
  destruct (pages_cases (get_sections todoist project_id))
    as [[sps Hsections]|(sps & e & rest & Hsections)];
    [|left; rewrite (run_sections_failed _ _ _ _ _ _ _ _ Htasks Hsome Hsections);
      by observe].
  destruct (Agent.new agent) as [e|] eqn:Hnew;
    [left; rewrite (run_agent_unavailable _ _ _ _ _ _ _ Htasks Hsome Hsections Hnew);
     by observe|].
  right. exists tps, sps. split; [done|]. split; [done|].
  destruct (Agent.run agent (prompt_of (concat tps) (concat sps)))
    as [e|output] eqn:Hagent.
  - rewrite (run_agent_failed _ _ _ _ _ _ _ Htasks Hsome Hsections Hnew Hagent).
    by observe.
  - rewrite (run_applied _ _ _ _ _ _ _ Htasks Hsome Hsections Hagent).
    by observe.
Qed.




(** C5: when every fetched task has a non-empty section reference, the run
    returns normally after the no-op record and never invokes the agent. *)
Theorem C5_noop_without_classifier agent sched todoist project_id tps :
  get_tasks todoist project_id = map inr tps →
  (∀ task, task ∈ concat tps → ∃ s, Task.section_id task = Some s ∧ s ≠ "") →
  (run agent sched todoist project_id).2 = Return tt
  ∧ agent_calls (run agent sched todoist project_id).1 = []
  ∧ log_lines (run agent sched todoist project_id).1
    = [(INFO, "Starting task-section assignment process");
       (INFO, "All tasks already have sections assigned")].
Proof.
  intros Htasks Hall.
  rewrite (run_noop _ _ _ _ _ Htasks (non_assigned_nil _ Hall)).
  split; [done|]. split; by observe.
Qed.

Lemma C5_noop_without_classifier_witness :
  (run Scenario.agent_down [] Scenario.store_assigned "P").2 = Return tt
  ∧ agent_calls (run Scenario.agent_down [] Scenario.store_assigned "P").1 = []
  ∧ log_lines (run Scenario.agent_down [] Scenario.store_assigned "P").1
    = [(INFO, "Starting task-section assignment process");
       (INFO, "All tasks already have sections assigned")].
Proof.
  apply (C5_noop_without_classifier Scenario.agent_down [] Scenario.store_assigned "P"
           [[Scenario.pay_rent]; [Scenario.water_plants; Scenario.book_flight]]);
    [reflexivity|].
  intros task Hin. simpl in Hin.
  rewrite !elem_of_cons, elem_of_nil in Hin.
  destruct Hin as [->|[->|[->|[]]]]; simpl; eexists; (split; [reflexivity|discriminate]).
Defined.

(** C10: in the no-op case [run] returns before line 43: no request for
    sections is made, and no [move_task] call. *)
Theorem C10_noop_reads_no_sections agent sched todoist project_id tps :
  get_tasks todoist project_id = map inr tps →
  (∀ task, task ∈ concat tps → ∃ s, Task.section_id task = Some s ∧ s ≠ "") →
  section_requests (run agent sched todoist project_id).1 = []
  ∧ move_calls (run agent sched todoist project_id).1 = [].
Proof.
  intros Htasks Hall.
  rewrite (run_noop _ _ _ _ _ Htasks (non_assigned_nil _ Hall)).
  split; by observe.
Qed.

(** The section source is broken, and the run does not notice. *)
Lemma C10_noop_reads_no_sections_witness :
  section_requests (run Scenario.agent_down [] Scenario.store_assigned "P").1 = []
  ∧ move_calls (run Scenario.agent_down [] Scenario.store_assigned "P").1 = [].
Proof.
  apply (C10_noop_reads_no_sections Scenario.agent_down [] Scenario.store_assigned "P"
           [[Scenario.pay_rent]; [Scenario.water_plants; Scenario.book_flight]]);
    [reflexivity|].
  intros task Hin. simpl in Hin.
  rewrite !elem_of_cons, elem_of_nil in Hin.
  destruct Hin as [->|[->|[->|[]]]]; simpl; eexists; (split; [reflexivity|discriminate]).
Defined.

(** ** The snapshot *)

Lemma length_concat_pages {A} (pages : list (list A)) :
  length (concat pages) = sum_list (map length pages).
Proof.
  induction pages as [|page pages IH]; simpl; [done|].
  by rewrite length_app, IH.
Qed.

(** C6: both sources are drained to the last page. Every page is requested,
    in order; the list the loop builds is the concatenation of the pages, so
    it has as many elements as the pages together; and the request sent to
    the agent, once it is built, is made from these two lists. *)
Theorem C6_all_pages_drained agent sched todoist project_id tps sps :
  get_tasks todoist project_id = map inr tps →
  get_sections todoist project_id = map inr sps →
  drain TasksPage (get_tasks todoist project_id) []
    = (map (λ page, TasksPage (inr page)) tps, Return (concat tps))
  ∧ drain SectionsPage (get_sections todoist project_id) []
    = (map (λ page, SectionsPage (inr page)) sps, Return (concat sps))
  ∧ length (concat tps) = sum_list (map length tps)
  ∧ length (concat sps) = sum_list (map length sps)
  ∧ (non_assigned (concat tps) ≠ [] →
     Agent.new agent = None →
     agent_calls (run agent sched todoist project_id).1
     = [prompt_of (concat tps) (concat sps)]).
Proof.
  intros Htasks Hsections.
  rewrite Htasks, Hsections, !drain_ok. simpl.
  do 2 (split; [done|]).
  do 2 (split; [apply length_concat_pages|]).
  intros Hsome Hnew.
  destruct (Agent.run agent (prompt_of (concat tps) (concat sps)))
    as [e|output] eqn:Hagent.
  - rewrite (run_agent_failed _ _ _ _ _ _ _ Htasks Hsome Hsections Hnew Hagent).
    by observe.
  - rewrite (run_applied _ _ _ _ _ _ _ Htasks Hsome Hsections Hagent).
    by observe.
Qed.

(** Pages of sizes 2, 3 and 1 give six tasks, in page-then-within-page
    order. *)
Lemma C6_all_pages_drained_witness :
  drain TasksPage (get_tasks Scenario.store_pages "P") []
  = ([TasksPage (inr [Scenario.buy_milk; Scenario.pay_rent]);
      TasksPage (inr [Scenario.call_mum; Scenario.water_plants;
                      Scenario.send_report]);
      TasksPage (inr [Scenario.book_flight])],
     Return [Scenario.buy_milk; Scenario.pay_rent; Scenario.call_mum;
             Scenario.water_plants; Scenario.send_report; Scenario.book_flight])
  ∧ length (concat (A:=Task.t)
              [[Scenario.buy_milk; Scenario.pay_rent];
               [Scenario.call_mum; Scenario.water_plants; Scenario.send_report];
               [Scenario.book_flight]]) = 6.
Proof.
  split.
  - apply (C6_all_pages_drained
             (Scenario.agent_returning []) [] Scenario.store_pages "P"
             [[Scenario.buy_milk; Scenario.pay_rent];
              [Scenario.call_mum; Scenario.water_plants; Scenario.send_report];
              [Scenario.book_flight]]
             [[Scenario.work]; [Scenario.home]]); reflexivity.
  - reflexivity.
Defined.

(** C7: a task with a non-empty section reference is not in the unassigned
    list, a task without a section reference is, and the request the agent
    receives lists the unassigned tasks of the fetched pages and no other
    task. *)
Theorem C7_filter_correctness agent sched todoist project_id :
  (∀ tasks task s,
     Task.section_id task = Some s → s ≠ "" → task ∉ non_assigned tasks)
  ∧ (∀ tasks task,
       task ∈ tasks → Task.section_id task = None → task ∈ non_assigned tasks)
  ∧ (∀ prompt r,
       AgentRun prompt r ∈ (run agent sched todoist project_id).1 →
       ∃ tps sps,
         get_tasks todoist project_id = map inr tps
         ∧ get_sections todoist project_id = map inr sps
         ∧ prompt = user_prompt (msg_tasks (non_assigned (concat tps)))
                                (msg_sections (concat sps))).
Proof.
  split; [|split].
  - intros tasks task s Hs Hne Hin.
    apply list_elem_of_In, filter_In in Hin as [_ Hnot].
    rewrite Hs in Hnot. by destruct s.
  - intros tasks task Hin Hs.
    apply list_elem_of_In, filter_In. split; [by apply list_elem_of_In|].
    by rewrite Hs.
  - intros prompt r Hin.
    assert (prompt ∈ agent_calls (run agent sched todoist project_id).1) as Hcall.
    { apply list_elem_of_omap. by exists (AgentRun prompt r). }
    destruct (run_agent_calls agent sched todoist project_id)
      as [Hnone|(tps & sps & Htasks & Hsections & Hone)].
    + rewrite Hnone in Hcall. by apply elem_of_nil in Hcall.
    + rewrite Hone in Hcall. apply list_elem_of_singleton in Hcall.
      by exists tps, sps.
Qed.

(** Pay rent, Water plants and Book flight have a section: the request
    lists the three others. *)
Lemma C7_filter_correctness_witness :
  (Scenario.pay_rent
     ∉ non_assigned [Scenario.buy_milk; Scenario.pay_rent; Scenario.call_mum])
  ∧ (Scenario.call_mum
       ∈ non_assigned [Scenario.buy_milk; Scenario.pay_rent; Scenario.call_mum]).
Proof.
  split.
  - apply (C7_filter_correctness (Scenario.agent_returning []) []
             Scenario.store_pages "P") with (s := "B2");
      [reflexivity | discriminate].
  - apply (C7_filter_correctness (Scenario.agent_returning []) []
             Scenario.store_pages "P"); [|reflexivity].
    apply list_elem_of_In. simpl. tauto.
Defined.

(** ** The report *)

Section DictComprehension.
Context {A : Type} (key val : A → string).

Let build (d : gmap string string) (xs : list A) : gmap string string :=
  foldl (λ d x, <[key x := val x]> d) d xs.

(** A key carried by no element is left as it was. *)
Lemma dict_build_other d xs k :
  k ∉ map key xs → build d xs !! k = d !! k.
Proof.
  revert d. induction xs as [|x xs IH]; intros d Hk; simpl; [done|].
  simpl in Hk. apply not_elem_of_cons in Hk as [Hne Hk].
  unfold build in IH. rewrite IH by done. by rewrite lookup_insert_ne.
Qed.

(** The last element that carries a key gives its value. *)
Lemma dict_build_last d before x after :
  key x ∉ map key after →
  build d (before ++ x :: after) !! key x = Some (val x).
Proof.
  intros Hk. unfold build. rewrite foldl_app. simpl.
  fold (build (<[key x:=val x]> (foldl (λ d x, <[key x := val x]> d) d before)) after).
  rewrite dict_build_other by done. apply lookup_insert_eq.
Qed.
End DictComprehension.

(** C9: the line for a pair and its result names the task and the section
    by what the two maps give for the IDs of the pair, with the ID itself as
    the default. The maps are built from the snapshot: an ID carried by a
    task (a section) of the snapshot resolves to the content (the name) of
    the last one that carries it, and an ID carried by none resolves to
    itself. *)
Theorem C9_labels_with_raw_id_fallback tasks sections pr r :
  report (task_map_of tasks) (section_map_of sections) (pr, r)
  = ([match r with
      | inl exc =>
          Log ERROR
            ("Failed to move task '"
               +:+ dict_get (task_map_of tasks) (task_id pr) (task_id pr)
               +:+ "' to section '"
               +:+ dict_get (section_map_of sections) (section_id pr) (section_id pr)
               +:+ "': " +:+ str exc)
      | inr _ =>
          Log INFO
            ("Successfully moved task '"
               +:+ dict_get (task_map_of tasks) (task_id pr) (task_id pr)
               +:+ "' to section '"
               +:+ dict_get (section_map_of sections) (section_id pr) (section_id pr)
               +:+ "'")
      end], Return tt)
  ∧ (∀ before task after,
       tasks = before ++ task :: after →
       Task.id task = task_id pr →
       task_id pr ∉ task_ids after →
       dict_get (task_map_of tasks) (task_id pr) (task_id pr) = Task.content task)
  ∧ (task_id pr ∉ task_ids tasks →
     dict_get (task_map_of tasks) (task_id pr) (task_id pr) = task_id pr)
  ∧ (∀ before section after,
       sections = before ++ section :: after →
       TodoistSection.id section = section_id pr →
       section_id pr ∉ section_ids after →
       dict_get (section_map_of sections) (section_id pr) (section_id pr)
       = TodoistSection.name section)
  ∧ (section_id pr ∉ section_ids sections →
     dict_get (section_map_of sections) (section_id pr) (section_id pr)
     = section_id pr).
Proof.
  split; [by destruct r|].
  unfold dict_get, task_map_of, section_map_of, task_ids, section_ids.
  split; [|split; [|split]].
  - intros before task after -> <- Hlast.
    by rewrite (dict_build_last Task.id Task.content).
  - intros Hnone. by rewrite (dict_build_other Task.id Task.content).
  - intros before section after -> <- Hlast.
    by rewrite (dict_build_last TodoistSection.id TodoistSection.name).
  - intros Hnone.
    by rewrite (dict_build_other TodoistSection.id TodoistSection.name).
Qed.

(** Buy milk resolves to its content; B999 is no section and stays as it
    is. *)
Lemma C9_labels_with_raw_id_fallback_witness :
  report (task_map_of [Scenario.buy_milk])
         (section_map_of [Scenario.work; Scenario.home])
         (Scenario.assign "T1" "B999", inl (Exc "section not found"))
  = ([Log ERROR
        "Failed to move task 'Buy milk' to section 'B999': section not found"],
     Return tt)
  ∧ dict_get (section_map_of [Scenario.work; Scenario.home]) "B999" "B999" = "B999".
Proof.
  split; [by vm_compute|].
  apply (C9_labels_with_raw_id_fallback
           [Scenario.buy_milk] [Scenario.work; Scenario.home]
           (Scenario.assign "T1" "B999") (inl (Exc "section not found"))).
  unfold section_ids. simpl. rewrite !elem_of_cons, elem_of_nil.
  intros [?|[?|[]]]; discriminate.
Defined.

(** * Further properties *)

(** ** The command line *)

(** X1: [parse_args] never returns an empty token. What it returns is the
    project of the command line, with the key of the command line when that
    is not empty, and with the [TODOIST_API_TOKEN] of the environment, as
    [load_dotenv] left it, otherwise. *)
Theorem parse_args_token_never_empty proc api_token project_id :
  parse_args proc = inr (api_token, project_id) →
  api_token ≠ ""
  ∧ ∃ args,
      parser_parse_args proc = inr args
      ∧ project_id = Namespace.project_id args
      ∧ (Namespace.api_key args = Some api_token
         ∨ (not_ (Namespace.api_key args) = true
            ∧ load_dotenv proc (os_environ proc) !! "TODOIST_API_TOKEN"
              = Some api_token)).
Proof.
  unfold parse_args, or_.
  destruct (parser_parse_args proc) as [exit|args]; [done|].
  destruct (Namespace.api_key args) as [[|c key]|] eqn:Hkey; simpl.
  - destruct (load_dotenv proc (os_environ proc) !! "TODOIST_API_TOKEN")
      as [[|c token]|]; intros ?; simplify_eq.
    split; [done|]. exists args. rewrite Hkey. eauto.
  - intros ?; simplify_eq. split; [done|]. exists args. eauto.
  - destruct (load_dotenv proc (os_environ proc) !! "TODOIST_API_TOKEN")
      as [[|c token]|]; intros ?; simplify_eq.
    split; [done|]. exists args. rewrite Hkey. eauto.
Qed.

Lemma parse_args_token_never_empty_witness :
  "from-dotenv" ≠ "".
Proof.
  apply (parse_args_token_never_empty (process_of (Some "") None) "from-dotenv" "P").
  reflexivity.
Defined.

(** X2: a non-empty key on the command line is the token, whatever the
    environment and the [.env] file hold. *)
Theorem parse_args_cli_key_wins proc args key :
  parser_parse_args proc = inr args →
  Namespace.api_key args = Some key →
  key ≠ "" →
  parse_args proc = inr (key, Namespace.project_id args).
Proof.
  intros Hargs Hkey Hne. unfold parse_args, or_. rewrite Hargs, Hkey.
  by destruct key.
Qed.

Lemma parse_args_cli_key_wins_witness :
  parse_args (process_of (Some "from-cli") (Some "from-env")) = inr ("from-cli", "P").
Proof.
  apply (parse_args_cli_key_wins (process_of (Some "from-cli") (Some "from-env"))
           (Namespace.mk "P" (Some "from-cli")) "from-cli");
    [reflexivity | reflexivity | discriminate].
Defined.

(** X3: when [load_dotenv] leaves the variables of the environment as they
    are, and the command line has no key or an empty one, a non-empty
    [TODOIST_API_TOKEN] of the environment is the token. *)
Theorem parse_args_environment_token proc args token :
  (∀ name value,
     os_environ proc !! name = Some value →
     load_dotenv proc (os_environ proc) !! name = Some value) →
  parser_parse_args proc = inr args →
  not_ (Namespace.api_key args) = true →
  os_environ proc !! "TODOIST_API_TOKEN" = Some token →
  token ≠ "" →
  parse_args proc = inr (token, Namespace.project_id args).
Proof.
  intros Hkeep Hargs Hnokey Henv Hne. unfold parse_args, or_.
  rewrite Hargs, Hnokey, (Hkeep _ _ Henv). by destruct token.
Qed.

Lemma parse_args_environment_token_witness :
  parse_args (process_of (Some "") (Some "from-env")) = inr ("from-env", "P").
Proof.
  apply (parse_args_environment_token (process_of (Some "") (Some "from-env"))
           (Namespace.mk "P" (Some "")) "from-env");
    [|reflexivity | reflexivity | reflexivity | discriminate].
  intros name value Hin. simpl in *.
  apply lookup_union_Some_l. exact Hin.
Defined.

(** X4: once [argparse] accepted the command line, [parse_args] exits
    exactly when neither the command line nor the environment has a key that
    is not empty (an empty string counts as no key), and it then exits with
    status 2. *)
Theorem parse_args_requires_key proc args :
  parser_parse_args proc = inr args →
  ((∃ exit, parse_args proc = inl exit)
   ↔ (not_ (Namespace.api_key args) = true
      ∧ not_ (load_dotenv proc (os_environ proc) !! "TODOIST_API_TOKEN") = true))
  ∧ (∀ exit, parse_args proc = inl exit → SystemExit.code exit = 2).
Proof.
  intros Hargs. unfold parse_args, or_. rewrite Hargs.
  destruct (Namespace.api_key args) as [[|c key]|]; simpl;
    destruct (load_dotenv proc (os_environ proc) !! "TODOIST_API_TOKEN")
      as [[|c' token]|]; simpl;
    (split; [split|]);
    try (intros [exit ?]; done); try (intros [? ?]; done);
    try (intros exit ?; by simplify_eq); eauto.
Qed.

Lemma parse_args_requires_key_witness :
  ∃ exit,
    parse_args
      {| parser_parse_args := inr (Namespace.mk "P" None);
         os_environ := {[ "TODOIST_API_TOKEN" := "" ]};
         load_dotenv := λ environ, environ |} = inl exit.
Proof.
  apply (parse_args_requires_key
           {| parser_parse_args := inr (Namespace.mk "P" None);
              os_environ := {[ "TODOIST_API_TOKEN" := "" ]};
              load_dotenv := λ environ, environ |}
           (Namespace.mk "P" None)); [reflexivity|].
  split; reflexivity.
Defined.


(** ** The run, whatever the collaborators do *)

(** Splits a goal about a run into the six ways the run can go, in the
    order: no unassigned task, agent not built, agent failed, pairs applied,
    sections failed, tasks failed. *)
Ltac run_cases agent sched todoist project_id :=
  let tps := fresh "tps" in
  let sps := fresh "sps" in
  let e := fresh "e" in
  let rest := fresh "rest" in
  let output := fresh "output" in
  let Htasks := fresh "Htasks" in
  let Hsections := fresh "Hsections" in
  let Hnone := fresh "Hnone" in
  let Hsome := fresh "Hsome" in
  let Hagent := fresh "Hagent" in
  let Hnew := fresh "Hnew" in
  destruct (pages_cases (get_tasks todoist project_id))
    as [[tps Htasks]|(tps & e & rest & Htasks)];
  [ destruct (decide (non_assigned (concat tps) = [])) as [Hnone|Hsome];
    [ rewrite (run_noop agent sched todoist project_id tps Htasks Hnone)
    | destruct (pages_cases (get_sections todoist project_id))
        as [[sps Hsections]|(sps & e & rest & Hsections)];
      [ destruct (Agent.new agent) as [e|] eqn:Hnew;
        [ rewrite (run_agent_unavailable agent sched todoist project_id tps sps e
                     Htasks Hsome Hsections Hnew)
        | destruct (Agent.run agent (prompt_of (concat tps) (concat sps)))
            as [e|output] eqn:Hagent;
          [ rewrite (run_agent_failed agent sched todoist project_id tps sps e
                       Htasks Hsome Hsections Hnew Hagent)
          | rewrite (run_applied agent sched todoist project_id tps sps output
                       Htasks Hsome Hsections Hagent) ] ]
      | rewrite (run_sections_failed agent sched todoist project_id tps sps e rest
                   Htasks Hsome Hsections) ] ]
  | rewrite (run_tasks_failed agent sched todoist project_id tps e rest Htasks) ].

Ltac observe_all :=
  unfold error_lines, failed_moves, cancelled_moves, report_lines, success_lines,
    task_pages, section_pages, projects_requested;
  observe.

(** X5: [run] returns normally exactly when no page request, no
    construction of the agent and no agent invocation failed: a [move_task]
    call that raises never makes [run] raise. When [run] raises, the
    exception is the one of the single step that failed, as it was raised. *)
Theorem run_returns_iff_no_fatal_error agent sched todoist project_id :
  ((run agent sched todoist project_id).2 = Return tt
   ↔ fetch_errors (run agent sched todoist project_id).1 = []
     ∧ construction_errors (run agent sched todoist project_id).1 = []
     ∧ classification_errors (run agent sched todoist project_id).1 = [])
  ∧ (∀ e, (run agent sched todoist project_id).2 = Raise e →
          fetch_errors (run agent sched todoist project_id).1
            ++ construction_errors (run agent sched todoist project_id).1
            ++ classification_errors (run agent sched todoist project_id).1
          = [e]).
Proof.
  run_cases agent sched todoist project_id; observe_all;
    (split; [split; [intros ?|intros (? & ? & ?)]|intros e' ?]); by simplify_eq.
Qed.

(** X6: the agent is invoked at most once in a run, and never when a page
    request failed: it is never asked about a partial snapshot. *)
Theorem agent_invoked_at_most_once agent sched todoist project_id :
  length (agent_calls (run agent sched todoist project_id).1) ≤ 1
  ∧ (fetch_errors (run agent sched todoist project_id).1 ≠ [] →
     agent_calls (run agent sched todoist project_id).1 = []).
Proof.
  run_cases agent sched todoist project_id; observe_all;
    (split; [lia|]); done.
Qed.

Lemma agent_invoked_at_most_once_witness :
  agent_calls
    (run (Scenario.agent_returning [Scenario.assign "T1" "B1"]) []
         Scenario.store_broken_sections "P").1 = [].
Proof.
  apply (agent_invoked_at_most_once
           (Scenario.agent_returning [Scenario.assign "T1" "B1"]) []
           Scenario.store_broken_sections "P").
  vm_compute. discriminate.
Defined.

(** X7: [run] asks for no other project than the one it is given: it makes
    one or two [get_tasks] or [get_sections] calls, all for [project_id]. *)
Theorem run_requests_only_its_project agent sched todoist project_id :
  projects_requested (run agent sched todoist project_id).1 = [project_id]
  ∨ projects_requested (run agent sched todoist project_id).1
    = [project_id; project_id].
Proof.
  run_cases agent sched todoist project_id; observe_all; auto.
Qed.

(** X8: pages are requested in order and none after a page that failed:
    the task pages requested in a run are all the pages of the source, or
    its pages up to the first that fails; the section pages requested are
    none, all, or those up to the first that fails. *)
Theorem pages_requested_up_to_first_failure agent sched todoist project_id :
  (task_pages (run agent sched todoist project_id).1 = get_tasks todoist project_id
   ∨ ∃ ps e rest,
       get_tasks todoist project_id = map inr ps ++ inl e :: rest
       ∧ task_pages (run agent sched todoist project_id).1 = map inr ps ++ [inl e])
  ∧ (section_pages (run agent sched todoist project_id).1 = []
     ∨ section_pages (run agent sched todoist project_id).1
       = get_sections todoist project_id
     ∨ ∃ ps e rest,
         get_sections todoist project_id = map inr ps ++ inl e :: rest
         ∧ section_pages (run agent sched todoist project_id).1
           = map inr ps ++ [inl e]).
Proof.
  assert (∀ A (ev : Exception + list A → event) f (ps : list (list A)),
            (∀ r, f (ev r) = Some r) →
            omap f (map (λ page, ev (inr page)) ps) = map inr ps) as Hpages.
  { intros A ev f ps Hf. induction ps as [|page ps IH]; simpl; [done|].
    rewrite Hf. f_equal. apply IH. }
  run_cases agent sched todoist project_id;
    unfold task_pages, section_pages, trace_before_apply; cbn [fst];
    rewrite ?omap_app;
    rewrite ?(Hpages _ TasksPage), ?(Hpages _ SectionsPage) by done;
    rewrite ?omap_map_none, ?omap_gather_trace, ?omap_report_trace by done;
    simpl; rewrite ?app_nil_r.
  - split; [left; congruence|by left].
  - split; [left; congruence|right; left; congruence].
  - split; [left; congruence|right; left; congruence].
  - split; [left; congruence|right; left; congruence].
  - split; [left; congruence|]. right; right. by eexists _, _, _.
  - split; [|by left]. right. by eexists _, _, _.
Qed.

(** The agent cannot be built: [run] raises what the construction raised. *)
Lemma run_returns_iff_no_fatal_error_witness :
  fetch_errors (run Scenario.agent_unbuildable [] Scenario.store_milk "P").1
  ++ construction_errors (run Scenario.agent_unbuildable [] Scenario.store_milk "P").1
  ++ classification_errors (run Scenario.agent_unbuildable [] Scenario.store_milk "P").1
  = [Exc "no API key"].
Proof.
  apply (run_returns_iff_no_fatal_error
           Scenario.agent_unbuildable [] Scenario.store_milk "P").
  reflexivity.
Defined.


Lemma prefix_app (s t : string) : String.prefix s (s +:+ t) = true.
Proof.
  induction s as [|c s IH]; [by destruct t|].
  change (String c s +:+ t) with (String c (s +:+ t)). simpl.
  by destruct (Ascii.ascii_dec c c).
Qed.





Lemma error_lines_failed_moves tasks sections
    (pairs : list TaskSectionAssignment) (rs : list outcome) :
  length (error_lines (report_trace tasks sections (zip pairs rs)))
  = length (failed_moves (zip_with move_event pairs rs)).
Proof.
  unfold report_trace, error_lines, failed_moves.
  revert rs. induction pairs as [|pr pairs IH]; intros [|[exc|b] rs];
    simpl; try done; try f_equal; apply IH.
Qed.

Lemma success_lines_other_moves tasks sections
    (pairs : list TaskSectionAssignment) (rs : list outcome) :
  length (success_lines (report_trace tasks sections (zip pairs rs)))
  + length (failed_moves (zip_with move_event pairs rs))
  = length (move_calls (zip_with move_event pairs rs))
  ∧ length (cancelled_moves (zip_with move_event pairs rs))
    ≤ length (success_lines (report_trace tasks sections (zip pairs rs))).
Proof.
  unfold report_trace, success_lines, failed_moves, cancelled_moves, move_calls,
    is_success_line.
  revert rs. induction pairs as [|pr pairs IH]; intros [|[exc|[b|text]] rs];
    simpl; try (split; done); destruct (IH rs) as [IHsum IHle];
    rewrite ?prefix_app; simpl;
    (split;
     [ rewrite ?Nat.add_succ_r; f_equal; exact IHsum
     | first [exact IHle | apply le_S, IHle | apply le_n_S, IHle] ]).
Qed.

(** X10: in every run the number of ERROR records equals the number of
    [move_task] calls whose result is an instance of [Exception]. Every other
    call, whether it returned [True], returned [False] or was cancelled, has
    a record that reports the task as moved. A failed page request,
    construction of the agent or agent invocation is not logged by [run]. *)
Theorem error_lines_count_failed_moves agent sched todoist project_id :
  length (error_lines (run agent sched todoist project_id).1)
  = length (failed_moves (run agent sched todoist project_id).1)
  ∧ length (success_lines (run agent sched todoist project_id).1)
    + length (failed_moves (run agent sched todoist project_id).1)
    = length (move_calls (run agent sched todoist project_id).1)
  ∧ length (cancelled_moves (run agent sched todoist project_id).1)
    ≤ length (success_lines (run agent sched todoist project_id).1).
Proof.
  run_cases agent sched todoist project_id; cbn [fst].
  4:{ pose proof (gather_trace_perm todoist sched (task_to_sections output))
        as Hperm.
      pose proof (error_lines_failed_moves (concat tps) (concat sps)
                    (task_to_sections output)
                    (gather_results todoist sched (task_to_sections output)))
        as Herrors.
      pose proof (success_lines_other_moves (concat tps) (concat sps)
                    (task_to_sections output)
                    (gather_results todoist sched (task_to_sections output)))
        as [Hsuccess Hcancelled].
      unfold error_lines, success_lines, failed_moves, cancelled_moves, move_calls
        in *.
      rewrite !omap_app, !length_app.
      rewrite !(omap_gather_trace
                  (λ ev, match ev with Log ERROR msg => Some msg | _ => None end))
        by done.
      rewrite !(omap_gather_trace
                  (λ ev, match ev with
                         | Log INFO msg =>
                             if is_success_line msg then Some msg else None
                         | _ => None
                         end)) by done.
      rewrite !(omap_report_trace
                  (λ ev, match ev with MoveTask t s (inl _) => Some (t, s) | _ => None end))
        by done.
      rewrite !(omap_report_trace
                  (λ ev, match ev with MoveTask t s _ => Some (t, s) | _ => None end))
        by done.
      rewrite !(omap_report_trace
                  (λ ev, match ev with
                         | MoveTask t s (inr (Cancelled _)) => Some (t, s)
                         | _ => None
                         end)) by done.
      rewrite <- Hperm in Herrors, Hsuccess, Hcancelled.
      unfold trace_before_apply. rewrite !omap_app, !omap_map_none by done.
      simpl in *. lia. }
  all: observe_all; (split; [reflexivity|split; [reflexivity|apply Nat.le_0_l]]).
Qed.

(** Both moves of T2 are rejected: two ERROR records. The move of T1 is
    cancelled: it is reported as done. *)
Lemma error_lines_count_failed_moves_witness :
  length
    (error_lines
       (run (Scenario.agent_returning
               [Scenario.assign "T2" "B1"; Scenario.assign "T2" "B2"])
            [1] Scenario.store_pages "P").1) = 2
  ∧ cancelled_moves
      (run (Scenario.agent_returning [Scenario.assign "T1" "B2"]) []
           Scenario.store_cancelling "P").1 = [("T1", "B2")]
  ∧ success_lines
      (run (Scenario.agent_returning [Scenario.assign "T1" "B2"]) []
           Scenario.store_cancelling "P").1
    = ["Successfully moved task 'Buy milk' to section 'Home'"].
Proof.
  split; [|split; reflexivity].
  rewrite (proj1 (error_lines_count_failed_moves
                    (Scenario.agent_returning
                       [Scenario.assign "T2" "B1"; Scenario.assign "T2" "B2"])
                    [1] Scenario.store_pages "P")).
  reflexivity.
Defined.

(** ** The schedule *)

Lemma reinsert_delete {A} (l : list A) k x :
  l !! k = Some x →
  take k (delete k l) ++ x :: drop k (delete k l) = l.
Proof.
  intros Hk.
  assert (k < length l) as Hlt by by eapply lookup_lt_Some.
  rewrite delete_take_drop.
  rewrite take_app_length', drop_app_length' by (rewrite length_take; lia).
  by apply take_drop_middle.
Qed.

Lemma gather_loop_order_free todoist n sched served pending :
  order_free todoist →
  length pending = n →
  (gather_loop todoist n sched served pending).2
  = (λ pr, move_task todoist [] (task_id pr) (section_id pr)) <$> pending.
Proof.
  intros Hfree. revert sched served pending.
  induction n as [|n IH]; intros sched served pending Hlen; simpl.
  { by destruct pending. }
  assert (hd 0 sched `mod` length pending < length pending) as Hk
    by (apply Nat.mod_upper_bound; lia).
  destruct (lookup_lt_is_Some_2 _ _ Hk) as [pr Hpr]. rewrite Hpr.
  specialize (IH (tl sched) (served ++ [(task_id pr, section_id pr)])
                 (delete (hd 0 sched `mod` length pending) pending)).
  destruct (gather_loop todoist n _ _ _) as [tr rs]; simpl in *.
  rewrite IH by (rewrite length_delete; [lia|by eauto]).
  rewrite list_fmap_delete, (Hfree served []).
  apply reinsert_delete. by rewrite list_lookup_fmap, Hpr.
Qed.

(** X11: when the server's answers do not depend on the order in which it
    is called, the schedule of the concurrent calls changes nothing but the
    order of the calls: two runs that differ in the schedule only end the
    same way, log the same records in the same order, and make the same
    calls with the same answers. *)
Theorem schedule_changes_only_call_order agent sched sched' todoist project_id :
  order_free todoist →
  (run agent sched todoist project_id).2 = (run agent sched' todoist project_id).2
  ∧ log_lines (run agent sched todoist project_id).1
    = log_lines (run agent sched' todoist project_id).1
  ∧ move_events (run agent sched todoist project_id).1
    ≡ₚ move_events (run agent sched' todoist project_id).1.
Proof.
  intros Hfree.
  assert (∀ pairs, gather_results todoist sched pairs
                   = gather_results todoist sched' pairs) as Hresults.
  { intros pairs. unfold gather_results.
    by rewrite !(gather_loop_order_free todoist _ _ _ _ Hfree). }
  run_cases agent sched todoist project_id.
  - by rewrite (run_noop agent sched' todoist project_id tps).
  - by rewrite (run_agent_unavailable agent sched' todoist project_id tps sps _
                  Htasks Hsome Hsections Hnew).
  - by rewrite (run_agent_failed agent sched' todoist project_id tps sps _
                  Htasks Hsome Hsections Hnew Hagent).
  - rewrite (run_applied agent sched' todoist project_id tps sps output) by done.
    split; [done|]. rewrite Hresults. split.
    + by observe.
    + observe. by rewrite !gather_trace_perm, Hresults.
  - by rewrite (run_sections_failed agent sched' todoist project_id tps sps _ _
                  Htasks Hsome Hsections).
  - by rewrite (run_tasks_failed agent sched' todoist project_id tps _ _ Htasks).
Qed.

Lemma schedule_changes_only_call_order_witness :
  log_lines
    (run (Scenario.agent_returning
            [Scenario.assign "T1" "B2"; Scenario.assign "T2" "B1";
             Scenario.assign "T3" "B1"])
         [2; 1] Scenario.store_pages "P").1
  = log_lines
      (run (Scenario.agent_returning
              [Scenario.assign "T1" "B2"; Scenario.assign "T2" "B1";
               Scenario.assign "T3" "B1"])
           [] Scenario.store_pages "P").1.
Proof.
  apply (schedule_changes_only_call_order
           (Scenario.agent_returning
              [Scenario.assign "T1" "B2"; Scenario.assign "T2" "B1";
               Scenario.assign "T3" "B1"])
           [2; 1] [] Scenario.store_pages "P").
  intros served served' t s. reflexivity.
Defined.

(** ** The request *)

Lemma string_app_nil_r (s : string) : s +:+ "" = s.
Proof.
  induction s as [|c s IH]; [done|].
  change (String c s +:+ "") with (String c (s +:+ "")). by rewrite IH.
Qed.

Lemma string_app_assoc (s1 s2 s3 : string) :
  (s1 +:+ s2) +:+ s3 = s1 +:+ s2 +:+ s3.
Proof.
  induction s1 as [|c s1 IH]; [done|].
  change ((String c s1 +:+ s2) +:+ s3) with (String c ((s1 +:+ s2) +:+ s3)).
  by rewrite IH.
Qed.

Lemma occurs_in_refl (x : string) : occurs_in x x.
Proof. exists "", "". by rewrite string_app_nil_r. Qed.

Lemma occurs_in_app_l (x a s : string) : occurs_in x s → occurs_in x (a +:+ s).
Proof.
  intros (before & after & ->). exists (a +:+ before), after.
  by rewrite string_app_assoc.
Qed.

Lemma occurs_in_app_r (x s b : string) : occurs_in x s → occurs_in x (s +:+ b).
Proof.
  intros (before & after & ->). exists before, (after +:+ b).
  by rewrite !string_app_assoc.
Qed.

(** Every joined string is in the result of [sep.join]. *)
Lemma occurs_in_join (sep x : string) (l : list string) :
  x ∈ l → occurs_in x (String.concat sep l).
Proof.
  induction l as [|y l IH]; intros Hin; [by apply elem_of_nil in Hin|].
  apply elem_of_cons in Hin as [->|Hin].
  - destruct l as [|z l]; simpl; [apply occurs_in_refl|].
    apply occurs_in_app_r, occurs_in_refl.
  - destruct l as [|z l]; [by apply elem_of_nil in Hin|].
    change (String.concat sep (y :: z :: l))
      with (y +:+ sep +:+ String.concat sep (z :: l)).
    by apply occurs_in_app_l, occurs_in_app_l, IH.
Qed.

(** X12: the request is not truncated: the line of every unassigned task
    and the line of every section, each with the label and the ID, occur in
    the prompt built from a snapshot. *)
Theorem prompt_lists_every_task_and_section tasks sections :
  (∀ task, task ∈ non_assigned tasks →
           occurs_in (task_line task) (prompt_of tasks sections))
  ∧ (∀ section, section ∈ sections →
                occurs_in (section_line section) (prompt_of tasks sections)).
Proof.
  unfold prompt_of, user_prompt. split.
  - intros task Hin.
    do 4 apply occurs_in_app_l. apply occurs_in_app_r.
    apply occurs_in_join.
    apply (list_elem_of_fmap_2 task_line) in Hin. exact Hin.
  - intros section Hin.
    do 10 apply occurs_in_app_l. apply occurs_in_app_r.
    apply occurs_in_join.
    apply (list_elem_of_fmap_2 section_line) in Hin. exact Hin.
Qed.

Lemma prompt_lists_every_task_and_section_witness :
  occurs_in "Home [SECTION_ID: B2]"
    (prompt_of [Scenario.buy_milk] [Scenario.work; Scenario.home]).
Proof.
  apply (proj2 (prompt_lists_every_task_and_section
                  [Scenario.buy_milk] [Scenario.work; Scenario.home])
           Scenario.home).
  apply list_elem_of_In. simpl. tauto.
Defined.

(** X13: the unassigned tasks are the tasks of the snapshot whose section
    reference is [None] or the empty string, in the order of the snapshot. *)
Theorem non_assigned_keeps_falsy_in_order tasks :
  (∀ task,
     task ∈ non_assigned tasks
     ↔ task ∈ tasks
       ∧ (Task.section_id task = None ∨ Task.section_id task = Some ""))
  ∧ non_assigned tasks `sublist_of` tasks.
Proof.
  split.
  - intros task. unfold non_assigned. split.
    + intros [Hin Hs]%list_elem_of_In%filter_In.
      split; [by apply list_elem_of_In|].
      destruct (Task.section_id task) as [[|c s]|]; auto. discriminate.
    + intros [Hin Hs]. apply list_elem_of_In, filter_In.
      split; [by apply list_elem_of_In|]. by destruct Hs as [->| ->].
  - unfold non_assigned. induction tasks as [|task tasks IH]; simpl; [done|].
    destruct (not_ (Task.section_id task)).
    + by apply sublist_skip.
    + by apply sublist_cons.
Qed.

(** A task whose section reference is the empty string is unassigned. *)
Lemma non_assigned_keeps_falsy_in_order_witness :
  Task.mk "T7" "Fix bike" (Some "")
  ∈ non_assigned [Scenario.pay_rent; Task.mk "T7" "Fix bike" (Some "")].
Proof.
  apply (non_assigned_keeps_falsy_in_order
           [Scenario.pay_rent; Task.mk "T7" "Fix bike" (Some "")]).
  split; [|right; reflexivity].
  apply list_elem_of_In. simpl. tauto.
Defined.

(** ** Empty inputs *)

(** X14: a project without sections does not stop the run. With an
    unassigned task and an empty list of sections the agent, when it can be
    built, is still invoked, once, with a request that lists no section. *)
Theorem empty_section_list_still_classified agent sched todoist project_id tps sps :
  get_tasks todoist project_id = map inr tps →
  non_assigned (concat tps) ≠ [] →
  get_sections todoist project_id = map inr sps →
  concat sps = [] →
  Agent.new agent = None →
  agent_calls (run agent sched todoist project_id).1
  = [user_prompt (msg_tasks (non_assigned (concat tps))) ""].
Proof.
  intros Htasks Hsome Hsections Hempty Hnew.
  destruct (Agent.run agent (prompt_of (concat tps) (concat sps)))
    as [e|output] eqn:Hagent.
  - rewrite (run_agent_failed _ _ _ _ _ _ _ Htasks Hsome Hsections Hnew Hagent).
    observe. unfold prompt_of. by rewrite Hempty.
  - rewrite (run_applied _ _ _ _ _ _ _ Htasks Hsome Hsections Hagent).
    observe. unfold prompt_of. by rewrite Hempty.
Qed.

Lemma empty_section_list_still_classified_witness :
  length
    (agent_calls
       (run Scenario.agent_down []
            {| get_tasks := λ _, [inr [Scenario.buy_milk]];
               get_sections := λ _, [inr []];
               move_task := λ _ _ _, inr true |} "P").1) = 1.
Proof.
  rewrite (empty_section_list_still_classified Scenario.agent_down []
             {| get_tasks := λ _, [inr [Scenario.buy_milk]];
                get_sections := λ _, [inr []];
                move_task := λ _ _ _, inr true |} "P"
             [[Scenario.buy_milk]] [[]]);
    [reflexivity | reflexivity | vm_compute; discriminate | reflexivity
    | reflexivity | reflexivity].
Defined.

(** X15: when the agent returns no pair, the run makes no [move_task]
    call, reports nothing and returns normally: the log has the four records
    of the earlier steps and the closing record. *)
Theorem empty_answer_moves_nothing agent sched todoist project_id tps sps output :
  get_tasks todoist project_id = map inr tps →
  non_assigned (concat tps) ≠ [] →
  get_sections todoist project_id = map inr sps →
  Agent.run agent (prompt_of (concat tps) (concat sps)) = inr output →
  task_to_sections output = [] →
  (run agent sched todoist project_id).2 = Return tt
  ∧ move_calls (run agent sched todoist project_id).1 = []
  ∧ log_lines (run agent sched todoist project_id).1
    = [(INFO, "Starting task-section assignment process");
       (INFO, "Found " +:+ pretty (length (non_assigned (concat tps)))
                +:+ " tasks without section");
       (INFO, "Requesting AI agent to map tasks to sections");
       (INFO, "Received mapping from AI agent, moving tasks to sections");
       (INFO, "Task-section assignment process completed")].
Proof.
  intros Htasks Hsome Hsections Hagent Hempty.
  rewrite (run_applied _ _ _ _ _ _ _ Htasks Hsome Hsections Hagent).
  rewrite Hempty. split; [done|]. split; by observe.
Qed.

Lemma empty_answer_moves_nothing_witness :
  move_calls (run (Scenario.agent_returning []) [] Scenario.store_milk "P").1 = [].
Proof.
  apply (empty_answer_moves_nothing (Scenario.agent_returning []) []
           Scenario.store_milk "P" [[Scenario.buy_milk]]
           [[Scenario.work; Scenario.home]] {| task_to_sections := [] |});
    [reflexivity | vm_compute; discriminate | reflexivity | reflexivity
    | reflexivity].
Defined.

(** ** The script *)

(** X16: without a key that is not empty, on the command line or in the
    environment, the script exits with status 2 before it makes any request
    to Todoist or to the agent. *)
Theorem main_without_key_requests_nothing proc args new_client agent sched :
  parser_parse_args proc = inr args →
  not_ (Namespace.api_key args) = true →
  not_ (load_dotenv proc (os_environ proc) !! "TODOIST_API_TOKEN") = true →
  (main proc new_client agent sched).1 = []
  ∧ exit_status (main proc new_client agent sched).2 = 2.
Proof.
  intros Hargs Hkey Henv. unfold main, parse_args, or_.
  rewrite Hargs, Hkey.
  by destruct (load_dotenv proc (os_environ proc) !! "TODOIST_API_TOKEN")
    as [[|c token]|].
Qed.

Lemma main_without_key_requests_nothing_witness :
  (main {| parser_parse_args := inr (Namespace.mk "P" (Some ""));
           os_environ := ∅;
           load_dotenv := λ environ, environ |}
        (λ _, Scenario.store_milk)
        (Scenario.agent_returning [Scenario.assign "T1" "B2"]) []).1 = []
  ∧ exit_status
      (main {| parser_parse_args := inr (Namespace.mk "P" (Some ""));
               os_environ := ∅;
               load_dotenv := λ environ, environ |}
            (λ _, Scenario.store_milk)
            (Scenario.agent_returning [Scenario.assign "T1" "B2"]) []).2 = 2.
Proof.
  apply (main_without_key_requests_nothing
           {| parser_parse_args := inr (Namespace.mk "P" (Some ""));
              os_environ := ∅;
              load_dotenv := λ environ, environ |}
           (Namespace.mk "P" (Some ""))); reflexivity.
Defined.

(** X17: once [parse_args] has returned, the exit status of the script is
    0 or 1, and it is 0 exactly when no page request, no construction of the
    agent and no agent invocation failed: the [move_task] calls that fail do
    not change it. *)
Theorem main_exit_status proc new_client agent sched api_token project_id :
  parse_args proc = inr (api_token, project_id) →
  (exit_status (main proc new_client agent sched).2 = 0
   ↔ fetch_errors (main proc new_client agent sched).1 = []
     ∧ construction_errors (main proc new_client agent sched).1 = []
     ∧ classification_errors (main proc new_client agent sched).1 = [])
  ∧ exit_status (main proc new_client agent sched).2 ≤ 1.
Proof.
  intros Hparse. unfold main. rewrite Hparse.
  run_cases agent sched (new_client api_token) project_id; observe_all;
    (split; [split; [intros ?|intros (? & ? & ?)]|lia]); by simplify_eq.
Qed.

(** Every move is rejected, and the status is 0. *)
Lemma main_exit_status_witness :
  exit_status
    (main (process_of (Some "from-cli") None) (λ _, Scenario.store_pages)
          (Scenario.agent_returning
             [Scenario.assign "T2" "B1"; Scenario.assign "T2" "B2"]) []).2 = 0.
Proof.
  apply (main_exit_status (process_of (Some "from-cli") None)
           (λ _, Scenario.store_pages)
           (Scenario.agent_returning
              [Scenario.assign "T2" "B1"; Scenario.assign "T2" "B2"]) []
           "from-cli" "P"); [reflexivity|].
  repeat split; reflexivity.
Defined.

(** X18: the script reads one project only, the one of the command line,
    and through the client built from the token [parse_args] returned. *)
Theorem main_requests_only_cli_project proc args new_client agent sched :
  parser_parse_args proc = inr args →
  Forall (λ p, p = Namespace.project_id args)
         (projects_requested (main proc new_client agent sched).1)
  ∧ ∀ api_token project_id,
      parse_args proc = inr (api_token, project_id) →
      (main proc new_client agent sched).1
      = (run agent sched (new_client api_token) (Namespace.project_id args)).1.
Proof.
  intros Hargs. unfold main, parse_args, or_. rewrite Hargs.
  destruct (if not_ (Namespace.api_key args)
            then load_dotenv proc (os_environ proc) !! "TODOIST_API_TOKEN"
            else Namespace.api_key args) as [[|c token]|];
    [split; [constructor|done]| |split; [constructor|done]].
  split.
  - run_cases agent sched (new_client (String c token)) (Namespace.project_id args);
      observe_all; repeat constructor.
  - intros api_token project_id [= <- <-].
    by destruct (run agent sched _ _).
Qed.

Lemma main_requests_only_cli_project_witness :
  Forall (λ p, p = "P")
    (projects_requested
       (main (process_of None (Some "from-env")) (λ _, Scenario.store_milk)
             (Scenario.agent_returning [Scenario.assign "T1" "B2"]) []).1).
Proof.
  apply (main_requests_only_cli_project (process_of None (Some "from-env"))
           (Namespace.mk "P" None)).
  reflexivity.
Defined.
